(** * tabular_toolbox.dask_ex: a shallow embedding and its properties

    The development follows [tabular_toolbox/dask_ex.py].  Python values are
    modelled by small inductive types, dictionaries by [gmap], raised
    exceptions by the [Err] branch of [result], and the attributes of a
    mutated object by an explicit store that is threaded through the calls.
    Calls into dask, pandas, numpy and scikit-learn are either given a
    small executable model (the safe ordinal encoder) or kept as the fields
    of an interface whose laws are stated next to it (metadata repair,
    concatenation, splitting). *)

From Stdlib Require Import ZArith Lia Ascii String List.
From Stdlib Require OrderedTypeEx.
From stdpp Require Import base option list sorting gmap strings.

Local Open Scope Z_scope.
Local Open Scope string_scope.

(** ** Python exceptions and fallible computations *)

Module Py.

(** The text of the [ValueError] raised by [SafeOrdinalEncoder.transform]:
    the two values interpolated with [{!r}] into
    "Columns of 'X' do not match the training columns. Got .., expected ..".
    The second one is printed from [self.columns], which is [None] when the
    encoder was built without an explicit column list. *)
Record columns_message := ColumnsMessage {
  msg_got : list string;
  msg_expected : option (list string)
}.

Inductive value_error :=
  | ColumnsDoNotMatch (msg : columns_message)
  | CannotConvert
  | ShapeMismatch.

Inductive exn :=
  | AssertionError
  | AttributeError
  | IndexError
  | KeyError (key : string)
  | NotImplementedError
  | TypeError
  | ValueError (msg : value_error)
  | BackendError (code : nat).

Inductive result (A : Type) :=
  | Ok (a : A)
  | Err (e : exn).
Arguments Ok {A} a.
Arguments Err {A} e.

Definition is_ok {A} (r : result A) : bool :=
  match r with Ok _ => true | Err _ => false end.

#[global] Instance result_ret : MRet result := fun _ a => Ok a.
#[global] Instance result_bind : MBind result := fun _ _ f r =>
  match r with Ok a => f a | Err e => Err e end.
#[global] Instance result_fmap : FMap result := fun _ _ f r =>
  match r with Ok a => Ok (f a) | Err e => Err e end.

(** [[f(x) for x in xs]]: stops at the first element that raises. *)
Fixpoint comprehension {A B} (f : A -> result B) (xs : list A) : result (list B) :=
  match xs with
  | [] => Ok []
  | x :: xs' => y ← f x; ys ← comprehension f xs'; Ok (y :: ys)
  end.

(** [assert b] *)
Definition assert (b : bool) : result unit :=
  if b then Ok tt else Err AssertionError.

End Py.
Export Py.

#[global] Instance columns_message_eq_dec : EqDecision columns_message.
Proof. solve_decision. Defined.

#[global] Instance value_error_eq_dec : EqDecision value_error.
Proof. solve_decision. Defined.

#[global] Instance exn_eq_dec : EqDecision exn.
Proof. solve_decision. Defined.

#[global] Instance result_eq_dec {A} `{EqDecision A} : EqDecision (result A).
Proof. solve_decision. Defined.

(** ** Cell values, column dtypes and tables *)

(** A cell of a table as the Python object that [np.vectorize] hands to the
    scalar functions.  Numbers are kept by value ([1], [1.0] and [True] are
    the same dictionary key in Python); floats that are not integers are
    outside the model, [SNaN] is the not-a-number float and [SNone] is
    [None]. *)
Inductive scalar :=
  | SStr (s : string)
  | SNum (z : Z)
  | SNaN
  | SNone.

#[global] Instance scalar_eq_dec : EqDecision scalar.
Proof. solve_decision. Defined.

#[global] Instance scalar_countable : Countable scalar.
Proof.
  refine (inj_countable'
    (fun x => match x with
              | SStr s => inl s
              | SNum z => inr (inl z)
              | SNaN => inr (inr true)
              | SNone => inr (inr false)
              end)
    (fun y => match y with
              | inl s => SStr s
              | inr (inl z) => SNum z
              | inr (inr true) => SNaN
              | inr (inr false) => SNone
              end) _).
  by intros [].
Defined.

(** The dtype recorded for a column ([X[c].dtype]): single and double
    precision floats, the eight integer dtypes, bool, object, and the
    categorical dtype of pandas.  A categorical dtype declares its
    categories; [Category None] is what dask writes in [_meta] for a
    categorical column whose categories it does not know yet.  Half
    precision and the date and time dtypes, whose cells are not among the
    [scalar]s, are left out. *)
Inductive dtype :=
  | Float32 | Float64
  | Int8 | Int16 | Int32 | Int64
  | UInt8 | UInt16 | UInt32 | UInt64
  | Bool | Object
  | Category (categories : option (list scalar)).

#[global] Instance dtype_eq_dec : EqDecision dtype.
Proof. solve_decision. Defined.

Definition is_category (dt : dtype) : bool :=
  match dt with Category _ => true | _ => false end.

(** [np.float], [np.int] and [np.uint] are the Python [float] and [int] and
    the C [unsigned long]; as dtypes they compare equal to the 64-bit ones. *)
Definition np_float : dtype := Float64.
Definition np_int : dtype := Int64.
Definition np_uint : dtype := UInt64.

(** [x in xs] on a tuple. *)
Definition py_in `{EqDecision A} (x : A) (xs : list A) : bool :=
  bool_decide (x ∈ xs).

Record column := Column {
  col_name : string;
  col_dtype : dtype;
  col_values : list scalar
}.

#[global] Instance column_eq_dec : EqDecision column.
Proof. solve_decision. Defined.

(** An eager table ([pd.DataFrame]); the row index plays no part in the
    encoder and is left out.  Column names are taken to be distinct. *)
Definition pdf := list column.

Definition pdf_columns (X : pdf) : list string := col_name <$> X.

(** [X[c]] *)
Fixpoint getitem (X : pdf) (c : string) : result column :=
  match X with
  | [] => Err (KeyError c)
  | k :: X' => if decide (col_name k = c) then Ok k else getitem X' c
  end.

(** [X[c] = r], where [r] is an array of dtype [dt]. *)
Fixpoint setitem (X : pdf) (c : string) (dt : dtype) (r : list scalar) : pdf :=
  match X with
  | [] => [Column c dt r]
  | k :: X' =>
      if decide (col_name k = c) then Column c dt r :: X'
      else k :: setitem X' c dt r
  end.

(** A partitioned table ([dd.DataFrame]): the empty frame [_meta] that
    carries the schema, and the partitions.  The graph is run eagerly: an
    exception that dask would raise at [compute] is raised here by the call
    that builds the partition. *)
Record ddf := Ddf {
  dd_meta : pdf;
  dd_partitions : list pdf
}.

Definition ddf_columns (X : ddf) : list string := pdf_columns (dd_meta X).

Inductive table :=
  | PdDataFrame (X : pdf)
  | DdDataFrame (X : ddf)
  | OtherFrame (columns : list string).

Definition columns (X : table) : list string :=
  match X with
  | PdDataFrame X => pdf_columns X
  | DdDataFrame X => ddf_columns X
  | OtherFrame cs => cs
  end.

(** ** The order used by [Index.sort_values] *)

Definition scalar_rank (x : scalar) : nat :=
  match x with SNum _ => 0 | SStr _ => 1 | SNaN => 2 | SNone => 3 end%nat.

(** Numbers by value and strings by code point (byte-wise on UTF-8).  Values
    of different kinds are ordered by kind only to make the relation total;
    [sort_values] refuses such lists before the order is consulted. *)
Definition scalar_leb (x y : scalar) : bool :=
  match x, y with
  | SNum a, SNum b => (a <=? b)%Z
  | SStr a, SStr b => String.leb a b
  | _, _ => (scalar_rank x <=? scalar_rank y)%nat
  end.

Definition scalar_le (x y : scalar) : Prop := scalar_leb x y = true.

#[global] Instance scalar_le_dec : RelDecision scalar_le.
Proof. intros x y. unfold scalar_le. apply _. Defined.

Definition is_str (x : scalar) : bool :=
  match x with SStr _ => true | _ => false end.
Definition is_num (x : scalar) : bool :=
  match x with SNum _ => true | _ => false end.
Definition notnull (x : scalar) : bool :=
  match x with SNaN | SNone => false | _ => true end.

(** [idx.sort_values()]: Python cannot compare a [str] with a number, so a
    list of mixed kinds raises [TypeError]. *)
Definition sort_values (idx : list scalar) : result (list scalar) :=
  if forallb is_str idx || forallb is_num idx
  then Ok (merge_sort scalar_le idx)
  else Err TypeError.

(** ** Numbers of numpy *)

(** The scalar types that the encoder's [dtype] argument may be
    ([np.float64] unless the caller chose another).  [np.float16], whose
    codes overflow to infinity from 65520 on, is left out. *)
Inductive np_type :=
  | np_float32 | np_float64
  | np_int8 | np_int16 | np_int32 | np_int64
  | np_uint8 | np_uint16 | np_uint32 | np_uint64.

#[global] Instance np_type_eq_dec : EqDecision np_type.
Proof. solve_decision. Defined.

(** [np.dtype(t)] *)
Definition np_dtype (t : np_type) : dtype :=
  match t with
  | np_float32 => Float32 | np_float64 => Float64
  | np_int8 => Int8 | np_int16 => Int16 | np_int32 => Int32 | np_int64 => Int64
  | np_uint8 => UInt8 | np_uint16 => UInt16 | np_uint32 => UInt32 | np_uint64 => UInt64
  end.

(** An integer kept in [w] bits, two's complement: the C conversion that
    numpy applies to an integer that does not fit.  The integers met here
    are positions in a vocabulary and cells of integer columns, all within
    64 bits. *)
Definition wrap_signed (w : Z) (n : Z) : Z :=
  (n + 2 ^ (w - 1)) mod 2 ^ w - 2 ^ (w - 1).
Definition wrap_unsigned (w : Z) (n : Z) : Z := n mod 2 ^ w.

(** An integer as the nearest float with a significand of [p] bits, ties to
    even; the exponent range is not reached by the numbers met here. *)
Definition round_half_even (p : Z) (n : Z) : Z :=
  let a := Z.abs n in
  let e := Z.log2 a + 1 - p in
  if (e <=? 0)%Z then n
  else
    let q := a / 2 ^ e in
    let r := a mod 2 ^ e in
    let half := 2 ^ (e - 1) in
    let q' := if (half <? r)%Z || ((r =? half)%Z && Z.odd q) then q + 1 else q in
    Z.sgn n * (q' * 2 ^ e).

(** [t(n)] for a Python integer [n], by value. *)
Definition np_cast (t : np_type) (n : Z) : Z :=
  match t with
  | np_float32 => round_half_even 24 n
  | np_float64 => round_half_even 53 n
  | np_int8 => wrap_signed 8 n
  | np_int16 => wrap_signed 16 n
  | np_int32 => wrap_signed 32 n
  | np_int64 => wrap_signed 64 n
  | np_uint8 => wrap_unsigned 8 n
  | np_uint16 => wrap_unsigned 16 n
  | np_uint32 => wrap_unsigned 32 n
  | np_uint64 => wrap_unsigned 64 n
  end.

(** [int(s)] on a [str] of ASCII text: blanks around an optional sign and
    decimal digits, with single underscores between digits. *)
Definition is_space (c : ascii) : bool :=
  let n := N_of_ascii c in ((9 <=? n) && (n <=? 13) || (n =? 32))%N.

Definition digit_of (c : ascii) : option Z :=
  let n := Z.of_N (N_of_ascii c) in
  if (48 <=? n)%Z && (n <=? 57)%Z then Some (n - 48) else None.

Fixpoint lstrip (s : string) : string :=
  match s with
  | String c s' => if is_space c then lstrip s' else s
  | EmptyString => s
  end.

Fixpoint all_space (s : string) : bool :=
  match s with
  | String c s' => is_space c && all_space s'
  | EmptyString => true
  end.

(** The text after a digit, with [acc] the number read so far. *)
Fixpoint more_digits (acc : Z) (s : string) : option Z :=
  match s with
  | EmptyString => Some acc
  | String c s' =>
      match digit_of c with
      | Some d => more_digits (10 * acc + d) s'
      | None =>
          if Ascii.eqb c "_"%char then
            match s' with
            | String c' s'' =>
                match digit_of c' with
                | Some d => more_digits (10 * acc + d) s''
                | None => None
                end
            | EmptyString => None
            end
          else if all_space s then Some acc else None
      end
  end.

Definition digits (s : string) : option Z :=
  match s with
  | String c s' =>
      match digit_of c with
      | Some d => more_digits d s'
      | None => None
      end
  | EmptyString => None
  end.

Definition int_of_str (s : string) : option Z :=
  match lstrip s with
  | String c s' =>
      if Ascii.eqb c "+"%char then digits s'
      else if Ascii.eqb c "-"%char then Z.opp <$> digits s'
      else digits (String c s')
  | EmptyString => None
  end.

(** [int(x)] on a cell.  [int] of the not-a-number float raises
    [ValueError] and [int(None)] raises [TypeError]. *)
Definition py_int (x : scalar) : result Z :=
  match x with
  | SNum z => Ok z
  | SStr s =>
      match int_of_str s with
      | Some z => Ok z
      | None => Err (ValueError CannotConvert)
      end
  | SNaN => Err (ValueError CannotConvert)
  | SNone => Err TypeError
  end.

(** [np.dtype(dt)], as [np.vectorize] calls it on its [otypes]: a dtype of
    pandas is not one of numpy. *)
Definition as_numpy_dtype (dt : dtype) : result unit :=
  if is_category dt then Err TypeError else Ok tt.

(** A Python object stored in a float array of [p] bits of significand:
    None is read as not-a-number.  The vocabulary of a float column holds
    no text; of the text that [float] would read, only integer literals
    are in the model. *)
Definition store_float (p : Z) (x : scalar) : result scalar :=
  match x with
  | SNaN | SNone => Ok SNaN
  | _ => n ← py_int x; Ok (SNum (round_half_even p n))
  end.

(** A Python object stored in an integer array: [int(x)], kept in the width
    of the array. *)
Definition store_int (wrap : Z -> Z) (x : scalar) : result scalar :=
  n ← py_int x; Ok (SNum (wrap n)).

(** A Python object stored in a bool array: its truth value. *)
Definition store_bool (x : scalar) : result scalar :=
  Ok (SNum match x with
           | SNum n => if (n =? 0)%Z then 0 else 1
           | SStr s => if decide (s = EmptyString) then 0 else 1
           | SNaN => 1
           | SNone => 0
           end).

(** One Python object stored in an array of dtype [dt]: the conversion that
    ends a call of [np.vectorize(.., otypes=[dt])]. *)
Definition store (dt : dtype) (x : scalar) : result scalar :=
  match dt with
  | Object => Ok x
  | Bool => store_bool x
  | Float32 => store_float 24 x
  | Float64 => store_float 53 x
  | Int8 => store_int (wrap_signed 8) x
  | Int16 => store_int (wrap_signed 16) x
  | Int32 => store_int (wrap_signed 32) x
  | Int64 => store_int (wrap_signed 64) x
  | UInt8 => store_int (wrap_unsigned 8) x
  | UInt16 => store_int (wrap_unsigned 16) x
  | UInt32 => store_int (wrap_unsigned 32) x
  | UInt64 => store_int (wrap_unsigned 64) x
  | Category _ => Err TypeError
  end.

(** ** SafeOrdinalEncoder *)

Module SafeOrdinalEncoder.

(** [for x in xs: s = body(s, x)] *)
Fixpoint for_each {S A} (body : S -> A -> result S) (s : S) (xs : list A) : result S :=
  match xs with
  | [] => Ok s
  | x :: xs' => s' ← body s x; for_each body s' xs'
  end.

(** [d[k]] on a plain [dict] *)
Definition dict_get {V} (d : gmap string V) (k : string) : result V :=
  match d !! k with
  | Some v => Ok v
  | None => Err (KeyError k)
  end.

(** The constructor arguments and what [fit] stores on [self]. *)
Record encoder := Encoder {
  enc_columns : option (list string);
  enc_dtype : np_type;
  columns_ : list string;
  dtypes_ : gmap string dtype;
  categorical_columns_ : list string;
  non_categorical_columns_ : list string;
  categories_ : gmap string (list scalar)
}.

(** [SafeOrdinalEncoder(columns, dtype)] before [fit]. *)
Record params := Params {
  p_columns : option (list string);
  p_dtype : np_type
}.

(** [X.select_dtypes(include=["category", 'object']).columns] *)
Definition select_dtypes (X : pdf) : list string :=
  col_name <$> filter (fun k => is_category (col_dtype k) \/ col_dtype k = Object) X.

(** [x.dropna().drop_duplicates()], in some order. *)
Definition distinct_values (vs : list scalar) : list scalar :=
  remove_dups (filter (fun x => notnull x = true) vs).

(** The categories that a dtype declares.  pandas keeps them distinct and
    without nulls, and the list is read as such. *)
Definition declared_categories (dt : dtype) : option (list scalar) :=
  match dt with
  | Category (Some cs) => Some (distinct_values cs)
  | _ => None
  end.

(** What dask's [categorize] collects from one partition: the categories
    of a column that is categorical there, else its distinct non-null
    values. *)
Definition partition_categories (p : pdf) (c : string) : result (list scalar) :=
  k ← getitem p c;
  Ok (default (distinct_values (col_values k)) (declared_categories (col_dtype k))).

(** [X.categorize(columns)[c].cat.categories], in some order.  A column
    whose categories [_meta] declares is left as it is, and its partitions
    are not looked at; for any other column the categories are collected
    from the partitions and duplicates dropped. *)
Definition cat_categories (X : ddf) (c : string) : result (list scalar) :=
  k ← getitem (dd_meta X) c;
  match declared_categories (col_dtype k) with
  | Some cs => Ok cs
  | None =>
      chunks ← comprehension (fun p => partition_categories p c) (dd_partitions X);
      Ok (remove_dups (List.concat chunks))
  end.

(** [X.columns.drop(labels)] *)
Definition index_drop (cols labels : list string) : result (list string) :=
  _ ← for_each (fun _ l => if decide (l ∈ cols) then Ok tt else Err (KeyError l)) tt labels;
  Ok (filter (fun c => c ∉ labels) cols).

(** [fit] calls [X.categorize], a method of the partitioned table, so that is
    the kind of table it is given here. *)
Definition fit (self : params) (X : ddf) : result encoder :=
  let columns_ := ddf_columns X in
  dtypes_ ← for_each (fun d c => k ← getitem (dd_meta X) c; Ok (<[c := col_dtype k]> d))
                     (∅ : gmap string dtype) (ddf_columns X);
  let columns :=
    match p_columns self with
    | None => select_dtypes (dd_meta X)
    | Some cs => cs
    end in
  (* X = X.categorize(columns=columns) *)
  _ ← for_each (fun _ c => _ ← getitem (dd_meta X) c; Ok tt) tt columns;
  non_categorical ← index_drop (ddf_columns X) columns;
  categories_ ← for_each (fun d c => cats ← cat_categories X c;
                                     sorted ← sort_values cats;
                                     Ok (<[c := sorted]> d))
                         (∅ : gmap string (list scalar)) columns;
  Ok (Encoder (p_columns self) (p_dtype self) columns_ dtypes_ columns
              non_categorical categories_).

(** *** make_encoder *)

(** [m = defaultdict(dtype); for k, v in zip(cat, range(unseen)): m[k] = dtype(v + 1)].
    A code is kept by its value, the integer that the number of type
    [dtype] equals. *)
Definition make_mapping (dtype : np_type) (cat : list scalar) : gmap scalar Z :=
  let unseen := Z.of_nat (length cat) in
  foldl (fun m kv => <[kv.1 := np_cast dtype (kv.2 + 1)]> m) ∅ (zip cat (seqZ 0 unseen)).

Definition make_mappings (columns : list string) (categories : gmap string (list scalar))
    (dtype : np_type) : result (gmap string (gmap scalar Z)) :=
  for_each (fun mappings col => cat ← dict_get categories col;
                                Ok (<[col := make_mapping dtype cat]> mappings))
           ∅ columns.

(** [mappings[c][x]]: reading a missing key of a [defaultdict] stores the
    default under that key, so the mappings are part of the result.  The
    default [dtype()] is the zero of every numeric type. *)
Definition encode_column (mappings : gmap string (gmap scalar Z)) (x : scalar) (c : string)
  : result (Z * gmap string (gmap scalar Z)) :=
  m ← dict_get mappings c;
  match m !! x with
  | Some v => Ok (v, mappings)
  | None => Ok (0, <[c := <[x := 0]> m]> mappings)
  end.

(** [np.vectorize(encode_column, excluded='c', otypes=[dtype])(values, col)] *)
Fixpoint vectorize_encode (mappings : gmap string (gmap scalar Z)) (values : list scalar)
    (c : string) : result (list Z * gmap string (gmap scalar Z)) :=
  match values with
  | [] => Ok ([], mappings)
  | x :: values' =>
      '(v, mappings1) ← encode_column mappings x c;
      '(vs, mappings2) ← vectorize_encode mappings1 values' c;
      Ok (v :: vs, mappings2)
  end.

Definition safe_ordinal_encoder (columns : list string) (dtype : np_type)
    (mappings : gmap string (gmap scalar Z)) (pdf0 : pdf)
  : result (pdf * gmap string (gmap scalar Z)) :=
  for_each (fun st col =>
              let '(pdf1, mappings1) := st in
              k ← getitem pdf1 col;
              '(r, mappings2) ← vectorize_encode mappings1 (col_values k) col;
              Ok (setitem pdf1 col (np_dtype dtype) (SNum <$> r), mappings2))
           (pdf0, mappings) columns.

(** [X.map_partitions(f)] for a function that carries the mappings along:
    dask runs it on [_meta] to infer the schema and on every partition. *)
Fixpoint map_partitions_st {S} (f : S -> pdf -> result (pdf * S)) (s : S) (ps : list pdf)
  : result (list pdf * S) :=
  match ps with
  | [] => Ok ([], s)
  | p :: ps' =>
      '(q, s1) ← f s p;
      '(qs, s2) ← map_partitions_st f s1 ps';
      Ok (q :: qs, s2)
  end.

Definition transform (self : encoder) (X : table) : result table :=
  if negb (bool_decide (columns X = columns_ self)) then
    Err (ValueError (ColumnsDoNotMatch (ColumnsMessage (columns X) (enc_columns self))))
  else
    mappings ← make_mappings (categorical_columns_ self) (categories_ self) (enc_dtype self);
    let encoder := safe_ordinal_encoder (categorical_columns_ self) (enc_dtype self) in
    match X with
    | PdDataFrame X => '(Y, _) ← encoder mappings X; Ok (PdDataFrame Y)
    | DdDataFrame X =>
        '(meta, mappings1) ← encoder mappings (dd_meta X);
        '(parts, _) ← map_partitions_st encoder mappings1 (dd_partitions X);
        Ok (DdDataFrame (Ddf meta parts))
    | OtherFrame _ => Err TypeError
    end.

(** *** make_decoder *)

Definition decode_column (categories : gmap string (list scalar)) (dtypes : gmap string dtype)
    (x : scalar) (col : string) : result scalar :=
  cat ← dict_get categories col;
  xi ← py_int x;
  let unseen := Z.of_nat (length cat) in
  if (xi <=? unseen)%Z && (1 <=? xi)%Z then
    match cat !! Z.to_nat (xi - 1) with
    | Some v => Ok v
    | None => Err IndexError
    end
  else
    dtype ← dict_get dtypes col;
    if py_in dtype [Float32; Float64; np_float] then Ok SNaN
    else if py_in dtype [Int32; Int64; np_int; UInt32; UInt64; np_uint] then Ok (SNum (-1))
    else Ok SNone.

(** [np.vectorize(decode_column, excluded='col', otypes=[otype])(values, col)]:
    [decode_column] is called on every cell, then the objects it returned
    are stored in an array of dtype [otype]. *)
Definition vectorize_decode (categories : gmap string (list scalar))
    (dtypes : gmap string dtype) (otype : dtype) (values : list scalar) (col : string)
  : result (list scalar) :=
  outputs ← comprehension (fun x => decode_column categories dtypes x col) values;
  comprehension (store otype) outputs.

Definition safe_ordinal_decoder (columns : list string)
    (categories : gmap string (list scalar)) (dtypes : gmap string dtype) (pdf0 : pdf)
  : result pdf :=
  for_each (fun pdf1 col =>
              otype ← dict_get dtypes col;
              _ ← as_numpy_dtype otype;
              k ← getitem pdf1 col;
              r ← vectorize_decode categories dtypes otype (col_values k) col;
              Ok (setitem pdf1 col otype r))
           pdf0 columns.

(** A two-dimensional [np.ndarray], column by column. *)
Record ndarray := NdArray {
  arr_dtype : dtype;
  arr_columns : list (list scalar)
}.

(** A [da.Array] cut in blocks along the rows; [da_chunks0] is [chunks[0]],
    with [None] for a length that dask holds as nan. *)
Record darray := DArray {
  da_blocks : list ndarray;
  da_chunks0 : list (option nat)
}.

Inductive array_like :=
  | Table (X : table)
  | NpArray (X : ndarray)
  | DaArray (X : darray).

(** [pd.DataFrame(a, columns=cols)] *)
Definition pd_DataFrame (a : ndarray) (cols : list string) : result pdf :=
  if decide (length cols = length (arr_columns a)) then
    Ok (zip_with (fun c vs => Column c (arr_dtype a) vs) cols (arr_columns a))
  else Err (ValueError ShapeMismatch).

(** [len] of a block of [X[:, 0]] *)
Definition block_len (b : ndarray) : result nat :=
  match arr_columns b with
  | c0 :: _ => Ok (length c0)
  | [] => Err IndexError
  end.

(** [dd.from_dask_array(X, columns=cols)] *)
Definition from_dask_array (X : darray) (cols : list string) : result ddf :=
  let dt := match da_blocks X with b :: _ => arr_dtype b | [] => Float64 end in
  meta ← pd_DataFrame (NdArray dt ((fun _ => []) <$> cols)) cols;
  parts ← comprehension (fun b => pd_DataFrame b cols) (da_blocks X);
  Ok (Ddf meta parts).

Definition inverse_transform (self : encoder) (X : array_like) : result table :=
  X ← match X with
      | NpArray a => PdDataFrame <$> pd_DataFrame a (columns_ self)
      | DaArray a =>
          let unknown := existsb (fun n => bool_decide (n = None)) (da_chunks0 a) in
          a ← (if unknown then
                 lengths ← comprehension block_len (da_blocks a);
                 Ok (DArray (da_blocks a) (Some <$> lengths))
               else Ok a);
          DdDataFrame <$> from_dask_array a (columns_ self)
      | Table X => Ok X
      end;
  let decoder :=
    safe_ordinal_decoder (categorical_columns_ self) (categories_ self) (dtypes_ self) in
  match X with
  | DdDataFrame X =>
      meta ← decoder (dd_meta X);
      parts ← comprehension decoder (dd_partitions X);
      Ok (DdDataFrame (Ddf meta parts))
  | PdDataFrame X => PdDataFrame <$> decoder X
  | OtherFrame _ => Err AssertionError
  end.

End SafeOrdinalEncoder.

(** ** The scenario of the specification: a column [color] *)

Module Scenario.
Import SafeOrdinalEncoder.

Definition color (vs : list string) : pdf := [Column "color" Object (SStr <$> vs)].

Definition train : ddf := Ddf (color []) [color ["red"]; color ["blue"]].

Definition fitted : result encoder := fit (Params None np_float64) train.

Definition codes_of (X : result table) : result (list scalar) :=
  X ← X;
  match X with
  | PdDataFrame X => col_values <$> getitem X "color"
  | _ => Err TypeError
  end.

(** The state that [fit] reaches on the scenario's training table. *)
Definition scenario_encoder : encoder :=
  Encoder None np_float64 ["color"] {["color" := Object]} ["color"] []
          {["color" := [SStr "blue"; SStr "red"]]}.

(** The same rows in one partition, in the other order. *)
Definition train_one_partition : ddf := Ddf (color []) [color ["blue"; "red"]].

(** A table with a 16-bit integer column, encoded on request. *)
Definition sizes : ddf :=
  Ddf [Column "size" Int16 []] [[Column "size" Int16 [SNum 10; SNum 20]]].
Definition sizes_params : params := Params (Some ["size"]) np_float64.
Definition sizes_encoder : encoder :=
  Encoder (Some ["size"]) np_float64 ["size"] {["size" := Int16]} ["size"] []
          {["size" := [SNum 10; SNum 20]]}.

(** A table whose column [grade] is categorical with the declared
    categories [a, b, z], and holds [a] alone. *)
Definition grades : dtype := Category (Some [SStr "a"; SStr "b"; SStr "z"]).
Definition graded : ddf :=
  Ddf [Column "grade" grades []] [[Column "grade" grades [SStr "a"]]].
Definition graded_encoder : encoder :=
  Encoder None np_float64 ["grade"] {["grade" := grades]} ["grade"] []
          {["grade" := [SStr "a"; SStr "b"; SStr "z"]]}.


(** A table with two columns, and the same columns handed back in the
    other order, or with one missing. *)
Definition ab_train : ddf :=
  Ddf [Column "a" Object []; Column "b" Int64 []]
      [[Column "a" Object [SStr "x"; SStr "y"]; Column "b" Int64 [SNum 1; SNum 2]]].
Definition ab_encoder : encoder :=
  Encoder None np_float64 ["a"; "b"] {["a" := Object; "b" := Int64]} ["a"] ["b"]
          {["a" := [SStr "x"; SStr "y"]]}.
Definition ba_frame : pdf :=
  [Column "b" Int64 [SNum 1]; Column "a" Object [SStr "x"]].
Definition a_frame : pdf := [Column "a" Object [SStr "x"]].
Definition ab_frame : pdf :=
  [Column "a" Object [SStr "y"; SStr "z"; SNaN]; Column "b" Int64 [SNum 7; SNum 8; SNum 9]].

End Scenario.

(** ** Descriptions used in the statements *)

Module Describe.

(** The position at which a key is written last by the filling loop. *)
Fixpoint last_index (v : scalar) (cat : list scalar) : option nat :=
  match cat with
  | [] => None
  | k :: cat' =>
      match last_index v cat' with
      | Some i => Some (S i)
      | None => if decide (k = v) then Some 0%nat else None
      end
  end.

(** The code that a dictionary gives to a cell: the stored one, else the
    default of the [defaultdict]. *)
Definition code_of (m : gmap scalar Z) (x : scalar) : Z := default 0 (m !! x).

(** The mappings of a later moment give every cell the code of the first. *)
Definition agree (m0 m1 : gmap string (gmap scalar Z)) : Prop :=
  forall c d0, m0 !! c = Some d0 ->
    exists d1, m1 !! c = Some d1 /\ forall y, code_of d1 y = code_of d0 y.

(** The object returned for a code outside the vocabulary, by the dtype
    recorded at fit time. *)
Definition unknown_marker (dt : dtype) : scalar :=
  match dt with
  | Float32 | Float64 => SNaN
  | Int32 | Int64 | UInt32 | UInt64 => SNum (-1)
  | _ => SNone
  end.

(** The marker when "float dtypes" and "integer dtypes" are read at their
    word, every width included. *)
Definition is_float_dtype (dt : dtype) : bool :=
  bool_decide (dt ∈ [Float32; Float64]).
Definition is_integer_dtype (dt : dtype) : bool :=
  bool_decide (dt ∈ [Int8; Int16; Int32; Int64; UInt8; UInt16; UInt32; UInt64]).
Definition marker_by_kind (dt : dtype) : scalar :=
  if is_float_dtype dt then SNaN
  else if is_integer_dtype dt then SNum (-1)
  else SNone.

(** The numeric type [t] holds every position up to [n] as the integer
    itself. *)
Definition holds_codes (t : np_type) (n : nat) : Prop :=
  forall k : Z, (0 <= k <= Z.of_nat n)%Z -> np_cast t k = k.



(** The values of column [c] over all partitions, in row order. *)
Definition column_values (X : ddf) (c : string) : result (list scalar) :=
  (fun chunks => List.concat chunks)
    <$> comprehension (fun p => col_values <$> getitem p c) (dd_partitions X).

(** Column [c] is not categorical with declared categories anywhere in the
    table, neither in [_meta] nor in a partition. *)
Definition undeclared (X : ddf) (c : string) : bool :=
  forallb (fun p => match getitem p c with
                    | Ok k => bool_decide (SafeOrdinalEncoder.declared_categories (col_dtype k) = None)
                    | Err _ => true
                    end)
          (dd_meta X :: dd_partitions X).


(** A column after [transform]: the codes of its cells under the dictionary
    of that column, in an array of the encoder's dtype. *)
Definition encoded_column (dt : dtype) (mappings : gmap string (gmap scalar Z))
    (k : column) : column :=
  Column (col_name k) dt
         ((fun v => SNum (code_of (default ∅ (mappings !! col_name k)) v)) <$> col_values k).

Definition encode_frame (cols : list string) (dt : dtype)
    (mappings : gmap string (gmap scalar Z)) (Y : pdf) : pdf :=
  (fun k => if decide (col_name k ∈ cols) then encoded_column dt mappings k else k) <$> Y.



End Describe.
Export Describe.

(** ** The two backends behind an interface *)

Module Dask.

(** The classes that [isinstance] tells apart, and the opaque values that
    are only passed along. *)
Record carriers := Carriers {
  np_ndarray : Type;
  pd_DataFrame : Type;
  pd_Series : Type;
  da_Array : Type;
  dd_DataFrame : Type;
  dd_Series : Type;
  other : Type;
  kwargs : Type;
  rng : Type;
  np_RandomState : Type
}.

Inductive object {T : carriers} :=
  | Ndarray (a : np_ndarray T)
  | PandasFrame (X : pd_DataFrame T)
  | PandasSeries (X : pd_Series T)
  | DaskArray (a : da_Array T)
  | DaskFrame (X : dd_DataFrame T)
  | DaskSeries (X : dd_Series T)
  | Other (o : other T).
Arguments object T : clear implicits.

(** What a caller may pass as [random_state]: None, an integer seed, or a
    generator of numpy. *)
Inductive random_state {T : carriers} :=
  | NoRandomState
  | Seed (seed : Z)
  | Generator (r : np_RandomState T).
Arguments random_state T : clear implicits.

(** What the module calls on dask, pandas, dask_ml and scikit-learn.  A
    length that dask holds as nan is [None] in [chunks]. *)
Class Library (T : carriers) := {
  chunks : da_Array T -> list (list (option nat));
  compute_chunk_sizes : da_Array T -> result (da_Array T);
  from_array : np_ndarray T -> da_Array T;
  known_divisions : dd_DataFrame T -> bool;
  divisions : dd_DataFrame T -> list Z;
  frame_columns : dd_DataFrame T -> list string;
  reset_index : dd_DataFrame T -> result (dd_DataFrame T);
  set_index : dd_DataFrame T -> string -> result (dd_DataFrame T);
  frame_getitem : dd_DataFrame T -> string -> result (dd_Series T);
  frame_npartitions : dd_DataFrame T -> nat;
  repartition : dd_DataFrame T -> nat -> result (dd_DataFrame T);
  from_pandas_frame : pd_DataFrame T -> nat -> dd_DataFrame T;
  series_known_divisions : dd_Series T -> bool;
  series_name : dd_Series T -> string;
  series_npartitions : dd_Series T -> nat;
  to_frame : dd_Series T -> dd_DataFrame T;
  from_pandas_series : pd_Series T -> nat -> dd_Series T;
  array_npartitions : da_Array T -> nat;
  da_hstack : list (object T) -> result (object T);
  da_vstack : list (object T) -> result (object T);
  dd_concat : list (object T) -> Z -> kwargs T -> result (dd_DataFrame T);
  pd_concat : list (object T) -> Z -> kwargs T -> result (object T);
  dm_train_test_split :
    list (object T) -> bool -> random_state T -> kwargs T -> rng T
    -> result (list (object T)) * rng T;
  sk_train_test_split :
    list (object T) -> bool -> random_state T -> kwargs T -> rng T
    -> result (list (object T)) * rng T
}.

Section Functions.
Context {T : carriers} `{!Library T}.

Definition is_dask_dataframe (X : object T) : bool :=
  match X with DaskFrame _ => true | _ => false end.

Definition is_dask_series (X : object T) : bool :=
  match X with DaskSeries _ => true | _ => false end.

Definition is_dask_dataframe_or_series (X : object T) : bool :=
  match X with DaskFrame _ | DaskSeries _ => true | _ => false end.

Definition is_dask_array (X : object T) : bool :=
  match X with DaskArray _ => true | _ => false end.

Definition is_dask_object (X : object T) : bool :=
  match X with DaskArray _ | DaskFrame _ | DaskSeries _ => true | _ => false end.

Fixpoint exist_dask_object (args : list (object T)) : bool :=
  match args with
  | [] => false
  | a :: args' => if is_dask_object a then true else exist_dask_object args'
  end.

Fixpoint exist_dask_dataframe (args : list (object T)) : bool :=
  match args with
  | [] => false
  | a :: args' => if is_dask_dataframe a then true else exist_dask_dataframe args'
  end.

Fixpoint exist_dask_array (args : list (object T)) : bool :=
  match args with
  | [] => false
  | a :: args' => if is_dask_array a then true else exist_dask_array args'
  end.

Definition to_dask_type (X : object T) : object T :=
  match X with
  | Ndarray a => DaskArray (from_array a)
  | PandasFrame X => DaskFrame (from_pandas_frame X 1)
  | PandasSeries X => DaskSeries (from_pandas_series X 1)
  | _ => X
  end.

(** [any(np.nan in d for d in chunks)] *)
Definition any_unknown (chunks : list (list (option nat))) : bool :=
  existsb (fun d => bool_decide (None ∈ d)) chunks.

Definition make_chunk_size_known (a : object T) : result (object T) :=
  _ ← assert (is_dask_array a);
  match a with
  | DaskArray a0 =>
      if any_unknown (chunks a0) then DaskArray <$> compute_chunk_sizes a0
      else Ok a
  | _ => Ok a
  end.

(** The [dd.DataFrame] branch of [make_divisions_known].  Of the names
    that [reset_index] added, the first in column order stands for
    [list(index_name)[0]]. *)
Definition make_frame_divisions_known (X : dd_DataFrame T) : result (dd_DataFrame T) :=
  if negb (known_divisions X) then
    let columns := frame_columns X in
    X1 ← reset_index X;
    let new_columns := frame_columns X1 in
    let index_name := list_difference new_columns columns in
    X2 ← set_index X1 (match index_name with n :: _ => n | [] => "index" end);
    _ ← assert (known_divisions X2);
    Ok X2
  else Ok X.

Definition make_divisions_known (X : object T) : result (object T) :=
  _ ← assert (is_dask_object X);
  match X with
  | DaskFrame X0 => DaskFrame <$> make_frame_divisions_known X0
  | DaskSeries X0 =>
      if negb (series_known_divisions X0) then
        F ← make_frame_divisions_known (to_frame X0);
        DaskSeries <$> frame_getitem F (series_name X0)
      else Ok X
  | _ => make_chunk_size_known X
  end.

Definition hstack_array (arrs : list (object T)) : result (object T) :=
  arrs ← (if decide (1 < length arrs)%nat then comprehension make_chunk_size_known arrs
          else Ok arrs);
  da_hstack arrs.

Definition vstack_array (arrs : list (object T)) : result (object T) :=
  arrs ← (if decide (1 < length arrs)%nat then comprehension make_chunk_size_known arrs
          else Ok arrs);
  da_vstack arrs.

(** [x.npartitions] *)
Definition npartitions (x : object T) : result nat :=
  match x with
  | DaskFrame X => Ok (frame_npartitions X)
  | DaskSeries X => Ok (series_npartitions X)
  | DaskArray a => Ok (array_npartitions a)
  | _ => Err AttributeError
  end.

Definition concat_df (dfs : list (object T)) (axis : Z) (repartition_ : bool) (kw : kwargs T)
  : result (object T) :=
  if exist_dask_dataframe dfs then
    dfs ← (if decide (axis = 1) then comprehension make_divisions_known dfs else Ok dfs);
    df ← dd_concat dfs axis kw;
    if repartition_ then
      n ← match dfs with
          | d :: _ => npartitions d
          | [] => Err IndexError
          end;
      DaskFrame <$> repartition df n
    else Ok (DaskFrame df)
  else pd_concat dfs axis kw.

(** The seed that the signature gives when the caller passes none. *)
Definition default_random_state : random_state T := Seed 9527.

(** [random_state] goes to the splitter as the caller gave it; [g] is the
    state of the process-wide generator, which the call hands to the
    splitter and gets back. *)
Definition train_test_split (data : list (object T)) (shuffle : bool)
    (random_state : random_state T) (kw : kwargs T) (g : rng T)
  : result (list (object T)) * rng T :=
  if exist_dask_dataframe data then
    match (if decide (1 < length data)%nat
           then comprehension (fun x => make_divisions_known (to_dask_type x)) data
           else Ok data) with
    | Ok data => dm_train_test_split data shuffle random_state kw g
    | Err e => (Err e, g)
    end
  else sk_train_test_split data shuffle random_state kw g.

End Functions.

(** The part of the backends' contract that the properties below rely on. *)
Class Laws (T : carriers) `{!Library T} : Prop := {
  (** [compute_chunk_sizes] leaves no unknown length *)
  compute_chunk_sizes_known a a' :
    compute_chunk_sizes a = Ok a' -> any_unknown (chunks a') = false;
  (** selecting a column keeps the divisions of the frame *)
  frame_getitem_divisions F c s :
    frame_getitem F c = Ok s -> series_known_divisions s = known_divisions F;
  (** known divisions are increasing partition boundaries *)
  known_divisions_sorted X :
    known_divisions X = true -> StronglySorted Z.le (divisions X)
}.

End Dask.

(** ** DataInterceptEncoder and its subclasses *)

Module Intercept.
Import Dask.

(** [s.split(',')] *)
Fixpoint split_comma (s : string) : list string :=
  match s with
  | EmptyString => [EmptyString]
  | String c s' =>
      if Ascii.eqb c ","%char then EmptyString :: split_comma s'
      else match split_comma s' with
           | x :: xs => String c x :: xs
           | [] => [String c EmptyString]
           end
  end.

(** The [remove_keys] argument of [DataCacher]. *)
Inductive remove_keys_arg :=
  | RemoveNone
  | RemoveStr (s : string)
  | RemoveKeys (keys : list string).

Section Encoders.
Context {T : carriers}.

(** [X.persist()] on a partitioned table or array. *)
Class Persist := {
  persist_frame : dd_DataFrame T -> dd_DataFrame T;
  persist_array : da_Array T -> da_Array T
}.
Context `{!Persist}.

(** The cache dictionary that the steps of one pipeline share. *)
Abbreviation cache := (gmap string (object T)).

(** The class of the object, with the attributes its [__init__] adds. *)
Inductive variant :=
  | Base
  | CallableAdapterEncoder (fn : object T -> result (object T))
  | DataCacher (cache_key : option string) (remove_keys : option (list string))
  | CacheCleaner.

Record encoder := Encoder {
  _intercept_fit : bool;
  _intercept_fit_transform : bool;
  _intercept_transform : bool;
  _intercept_inverse_transform : bool;
  class_ : variant
}.

(** [DataCacher.__init__]: a [str] of keys is split on the commas into a set. *)
Definition init_remove_keys (a : remove_keys_arg) : option (list string) :=
  match a with
  | RemoveNone => None
  | RemoveStr s => Some (remove_dups (split_comma s))
  | RemoveKeys ks => Some ks
  end.

(** Truth value of [self.cache_key] and of [self.remove_keys]. *)
Definition truthy_key (k : option string) : option string :=
  match k with
  | Some k => if decide (k = EmptyString) then None else Some k
  | None => None
  end.

Definition persist (X : object T) : object T :=
  match X with
  | DaskFrame X => DaskFrame (persist_frame X)
  | DaskArray a => DaskArray (persist_array a)
  | _ => X
  end.

(** [self.intercept(X, ...)]: the value returned, or the exception, and the
    cache afterwards. *)
Definition intercept (self : encoder) (X : object T) (c : cache) : result (object T) * cache :=
  match class_ self with
  | Base => (Err NotImplementedError, c)
  | CallableAdapterEncoder fn => (fn X, c)
  | DataCacher cache_key remove_keys =>
      let '(X, c) :=
        match truthy_key cache_key with
        | Some k => let X := persist X in (X, <[k := X]> c)
        | None => (X, c)
        end in
      let c :=
        match remove_keys with
        | Some (k :: ks) => foldl (fun c key => delete key c) c (k :: ks)
        | _ => c
        end in
      (Ok X, c)
  | CacheCleaner => (Ok X, ∅)
  end.

Definition fit (self : encoder) (X : object T) (c : cache) : result encoder * cache :=
  if _intercept_fit self then
    match intercept self X c with
    | (Ok _, c) => (Ok self, c)
    | (Err e, c) => (Err e, c)
    end
  else (Ok self, c).

Definition fit_transform (self : encoder) (X : object T) (c : cache)
  : result (object T) * cache :=
  if _intercept_fit_transform self then intercept self X c else (Ok X, c).

Definition transform (self : encoder) (X : object T) (c : cache)
  : result (object T) * cache :=
  if _intercept_transform self then intercept self X c else (Ok X, c).

Definition inverse_transform (self : encoder) (X : object T) (c : cache)
  : result (object T) * cache :=
  if _intercept_inverse_transform self then intercept self X c else (Ok X, c).

(** The four hooks under one roof: what a call returns is either the
    transformer itself or data. *)
Inductive hook := Fit | FitTransform | Transform | InverseTransform.

Inductive returned :=
  | Self (self : encoder)
  | Data (X : object T).

Definition toggle (h : hook) (self : encoder) : bool :=
  match h with
  | Fit => _intercept_fit self
  | FitTransform => _intercept_fit_transform self
  | Transform => _intercept_transform self
  | InverseTransform => _intercept_inverse_transform self
  end.

Definition call (h : hook) (self : encoder) (X : object T) (c : cache)
  : result returned * cache :=
  match h with
  | Fit => let '(r, c) := fit self X c in (Self <$> r, c)
  | FitTransform => let '(r, c) := fit_transform self X c in (Data <$> r, c)
  | Transform => let '(r, c) := transform self X c in (Data <$> r, c)
  | InverseTransform => let '(r, c) := inverse_transform self X c in (Data <$> r, c)
  end.

End Encoders.

End Intercept.

(** ** permutation_importance and the estimator it wraps *)

Module Importance.
Import Dask.

(** A callable held in an attribute of the estimator: a method of its
    class, or [partial(call_and_compute, fn)]. *)
Inductive callable :=
  | Method (name : string)
  | CallAndCompute (fn : callable).

#[global] Instance callable_eq_dec : EqDecision callable.
Proof. solve_decision. Defined.

(** The attributes of the estimator object that hold callables. *)
Abbreviation estimator := (gmap string callable).

Definition hasattr (est : estimator) (name : string) : bool :=
  bool_decide (is_Some (est !! name)).

(** [setattr(est, '_orig_' + name, est.name);
     setattr(est, name, partial(call_and_compute, est.name))] *)
Definition wrap_method (name : string) (est : estimator) : estimator :=
  match est !! name with
  | Some orig => <[name := CallAndCompute orig]> (<["_orig_" +:+ name := orig]> est)
  | None => est
  end.

Definition wrap_estimator (est : estimator) : estimator :=
  wrap_method "predict" (wrap_method "predict_proba" est).

Section Engine.
Context {T : carriers} `{!Library T}.

(** What the function takes from scikit-learn, numpy and dask. *)
Class Scoring := {
  scoring : Type;
  scorer : Type;
  score : Type;
  bunch : Type;
  sk_permutation_importance :
    estimator -> object T -> object T -> scoring -> nat -> option Z -> result bunch;
  check_random_state : option Z -> result (rng T);
  compute : object T -> result (object T);
  check_scoring : estimator -> scoring -> result scorer;
  apply_scorer : scorer -> estimator -> object T -> object T -> result score;
  shape_1 : dd_DataFrame T -> nat;
  (** [X.copy().map_partitions(shuffle_partition, c)] *)
  shuffle_partitions : dd_DataFrame T -> nat -> rng T -> result (dd_DataFrame T) * rng T;
  (** [baseline_score - np.array(scores)] and the [Bunch] of its mean and
      standard deviation along the repeats *)
  make_bunch : score -> list (list score) -> bunch
}.
Context `{!Scoring}.

(** [for i in range(n_repeats)]: the scores of one column. *)
Fixpoint repeat_scores (sc : scorer) (est : estimator) (X : dd_DataFrame T) (y : object T)
    (c : nat) (n_repeats : nat) (g : rng T) : result (list score) * rng T :=
  match n_repeats with
  | O => (Ok [], g)
  | S n =>
      match shuffle_partitions X c g with
      | (Ok X_permuted, g) =>
          match apply_scorer sc est (DaskFrame X_permuted) y with
          | Ok s =>
              match repeat_scores sc est X y c n g with
              | (Ok ss, g) => (Ok (s :: ss), g)
              | (Err e, g) => (Err e, g)
              end
          | Err e => (Err e, g)
          end
      | (Err e, g) => (Err e, g)
      end
  end.

(** [for c in range(X.shape[1])] *)
Fixpoint column_scores (sc : scorer) (est : estimator) (X : dd_DataFrame T) (y : object T)
    (cs : list nat) (n_repeats : nat) (g : rng T) : result (list (list score)) :=
  match cs with
  | [] => Ok []
  | c :: cs' =>
      match repeat_scores sc est X y c n_repeats g with
      | (Ok col_scores, g) =>
          scores ← column_scores sc est X y cs' n_repeats g;
          Ok (col_scores :: scores)
      | (Err e, _) => Err e
      end
  end.

(** The value returned, or the exception raised, and the attributes of
    the estimator object when the call is over. *)
Definition permutation_importance (est : estimator) (X y : object T) (sco : scoring)
    (n_repeats : nat) (random_state : option Z) : result bunch * estimator :=
  match X with
  | DaskFrame X0 =>
      match check_random_state random_state with
      | Err e => (Err e, est)
      | Ok g =>
          match (if is_dask_object y then compute y else Ok y) with
          | Err e => (Err e, est)
          | Ok y =>
              let est := wrap_estimator est in
              (sc ← check_scoring est sco;
               baseline_score ← apply_scorer sc est (DaskFrame X0) y;
               scores ← column_scores sc est X0 y (seq 0 (shape_1 X0)) n_repeats g;
               Ok (make_bunch baseline_score scores),
               est)
          end
      end
  | _ => (sk_permutation_importance est X y sco n_repeats random_state, est)
  end.

End Engine.

End Importance.

(** ** MultiLabelEncoder *)

Module MultiLabelEncoder.

(** What a call of this class can raise: its own assertions and its
    [Exception] for an unsupported type, the [KeyError] of [self.encoders[n]],
    the [ValueError] of taking the truth value of a table, the [ValueError]
    of [np.stack] and [da.stack] on an empty list, and whatever the label
    encoder of dask_ml raises. *)
Inductive raised :=
  | Assertion
  | UnsupportedType
  | AmbiguousTruth
  | MissingEncoder (n : nat)
  | NothingToStack
  | FromLabelEncoder (e : exn).

Inductive outcome (A : Type) :=
  | Returns (a : A)
  | Raises (r : raised).
Arguments Returns {A} a.
Arguments Raises {A} r.

(** The [y] argument: left at None, or a pandas or dask table or column. *)
Inductive target :=
  | NoTarget
  | TableTarget.

Section Encoder.
(** A column of values, and the fitted [dm_pre.LabelEncoder] with its two
    methods. *)
Context {column label_encoder : Type}.
Context (le_fit : column -> result label_encoder).
Context (le_transform : label_encoder -> column -> result column).

(** The argument [X]: a table or a two-dimensional array of either backend,
    column by column; an object whose shape is not two-dimensional; or a
    two-dimensional object of another type. *)
Inductive input :=
  | Frame (partitioned : bool) (columns : list string) (values : list column)
  | Array (partitioned : bool) (values : list column)
  | NotTwoDimensional
  | OtherTwoDimensional.

(** [self.encoders] *)
Abbreviation encoders := (gmap nat label_encoder).

(** [for n in range(n_features): le = LabelEncoder(); le.fit(X[:, n]); self.encoders[n] = le],
    from column [n] on. *)
Fixpoint fit_columns (self : encoders) (n : nat) (cols : list column)
  : outcome unit * encoders :=
  match cols with
  | [] => (Returns tt, self)
  | col :: cols' =>
      match le_fit col with
      | Ok le => fit_columns (<[n := le]> self) (S n) cols'
      | Err e => (Raises (FromLabelEncoder e), self)
      end
  end.

Definition _fit_array (self : encoders) (X : list column) : outcome unit * encoders :=
  fit_columns self 0 X.

(** [self._fit_array(X.values, y.values if y else None)] *)
Definition _fit_df (self : encoders) (X : list column) (y : target)
  : outcome unit * encoders :=
  match y with
  | TableTarget => (Raises AmbiguousTruth, self)
  | NoTarget => _fit_array self X
  end.

Definition fit (self : encoders) (X : input) (y : target) : outcome unit * encoders :=
  match X with
  | NotTwoDimensional => (Raises Assertion, self)
  | Frame _ _ values => _fit_df self values y
  | Array _ values => _fit_array self values
  | OtherTwoDimensional => (Raises UnsupportedType, self)
  end.

(** [for n in range(n_features): data.append(self.encoders[n].transform(X[:, n]))],
    from column [n] on. *)
Fixpoint transform_columns (self : encoders) (n : nat) (cols : list column)
  : outcome (list column) :=
  match cols with
  | [] => Returns []
  | col :: cols' =>
      match self !! n with
      | None => Raises (MissingEncoder n)
      | Some le =>
          match le_transform le col with
          | Err e => Raises (FromLabelEncoder e)
          | Ok c =>
              match transform_columns self (S n) cols' with
              | Returns cs => Returns (c :: cs)
              | Raises r => Raises r
              end
          end
      end
  end.

(** [np.stack(data, axis=-1)], and [da.stack] alike. *)
Definition stack (data : list column) : outcome (list column) :=
  match data with
  | [] => Raises NothingToStack
  | _ => Returns data
  end.

Definition _transform_dask_array (self : encoders) (X : list column)
  : outcome (list column) :=
  let n_features := length X in
  if decide (n_features = size self) then
    match transform_columns self 0 X with
    | Returns data => stack data
    | Raises r => Raises r
    end
  else Raises Assertion.

Definition transform (self : encoders) (X : input) : outcome input :=
  match X with
  | NotTwoDimensional => Raises Assertion
  | Frame partitioned columns values =>
      match _transform_dask_array self values with
      | Returns data => Returns (Frame partitioned columns data)
      | Raises r => Raises r
      end
  | Array partitioned values =>
      match _transform_dask_array self values with
      | Returns data => Returns (Array partitioned data)
      | Raises r => Raises r
      end
  | OtherTwoDimensional => Raises UnsupportedType
  end.

(** [X.shape[1]] of a two-dimensional input. *)
Definition n_features (X : input) : nat :=
  match X with
  | Frame _ _ values | Array _ values => length values
  | _ => 0
  end.

(** Whether the input is a table or a two-dimensional array. *)
Definition is_table_or_array (X : input) : bool :=
  match X with Frame _ _ _ | Array _ _ => true | _ => false end.

End Encoder.

End MultiLabelEncoder.

(** ** A small backend that satisfies the interface *)

Module Toy.
Import Dask.

(** A partitioned array is its row-chunk lengths and whether dask has
    computed them yet; a partitioned table is its column names, its row
    count and whether its divisions are known. *)
Record toy_array := ToyArray {
  ta_lengths : list nat;
  ta_known : bool
}.

Record toy_frame := ToyFrame {
  tf_columns : list string;
  tf_rows : nat;
  tf_known : bool
}.

Record toy_series := ToySeries {
  ts_name : string;
  ts_rows : nat;
  ts_known : bool
}.

Definition T : carriers :=
  Carriers (list nat) (list string * nat) (string * nat)
           toy_array toy_frame toy_series unit unit nat nat.

(** A splitter that rotates the list of datasets by a number drawn from the
    seed or from the generator it is given; without either it draws from
    the process-wide generator and advances it. *)
Definition toy_split (data : list (object T)) (shuffle : bool) (rs : random_state T)
    (kw : unit) (g : nat) : result (list (object T)) * nat :=
  match rs with
  | Seed seed => (Ok (if shuffle then rotate (Z.to_nat seed) data else data), g)
  | Generator r => (Ok (if shuffle then rotate r data else data), g)
  | NoRandomState => (Ok (if shuffle then rotate g data else data), S g)
  end.

#[global] Instance library : Library T := {|
  chunks := fun a : da_Array T =>
    [(fun n => if ta_known a then Some n else None) <$> ta_lengths a];
  compute_chunk_sizes := fun a : da_Array T => Ok (ToyArray (ta_lengths a) true);
  from_array := fun a : np_ndarray T => ToyArray a true;
  known_divisions := fun X : dd_DataFrame T => tf_known X;
  divisions := fun X : dd_DataFrame T => if tf_known X then [0; Z.of_nat (tf_rows X)] else [];
  frame_columns := fun X : dd_DataFrame T => tf_columns X;
  reset_index := fun X : dd_DataFrame T =>
    Ok (ToyFrame ("index" :: tf_columns X) (tf_rows X) false);
  set_index := fun (X : dd_DataFrame T) c =>
    if decide (c ∈ tf_columns X)
    then Ok (ToyFrame (filter (fun k => k ≠ c) (tf_columns X)) (tf_rows X)
                      (bool_decide (0 < tf_rows X)%nat))
    else Err (KeyError c);
  frame_getitem := fun (X : dd_DataFrame T) c =>
    if decide (c ∈ tf_columns X) then Ok (ToySeries c (tf_rows X) (tf_known X))
    else Err (KeyError c);
  frame_npartitions := fun _ => 1%nat;
  repartition := fun (X : dd_DataFrame T) _ => Ok X;
  from_pandas_frame := fun (X : pd_DataFrame T) _ => ToyFrame X.1 X.2 true;
  series_known_divisions := fun s : dd_Series T => ts_known s;
  series_name := fun s : dd_Series T => ts_name s;
  series_npartitions := fun _ => 1%nat;
  to_frame := fun s : dd_Series T => ToyFrame [ts_name s] (ts_rows s) (ts_known s);
  from_pandas_series := fun (s : pd_Series T) _ => ToySeries s.1 s.2 true;
  array_npartitions := fun a : da_Array T => length (ta_lengths a);
  da_hstack := fun arrs =>
    match arrs with a :: _ => Ok a | [] => Err (ValueError ShapeMismatch) end;
  da_vstack := fun arrs =>
    match arrs with a :: _ => Ok a | [] => Err (ValueError ShapeMismatch) end;
  dd_concat := fun dfs _ _ =>
    match dfs with
    | DaskFrame X :: _ => Ok X
    | PandasFrame X :: _ => Ok (ToyFrame X.1 X.2 true)
    | _ => Err TypeError
    end;
  pd_concat := fun dfs _ _ =>
    match dfs with
    | PandasFrame X :: _ => Ok (PandasFrame X)
    | _ => Err TypeError
    end;
  dm_train_test_split := toy_split;
  sk_train_test_split := toy_split
|}.

Definition unknown_array : object T := DaskArray (T:=T) (ToyArray [3; 2]%nat false).
Definition unknown_frame : toy_frame := ToyFrame ["a"; "b"] 5 false.
Definition empty_frame : toy_frame := ToyFrame ["a"; "b"] 0 false.
Definition unknown_series : object T := DaskSeries (T:=T) (ToySeries "a" 5 false).
Definition eager_frame : object T := PandasFrame (T:=T) (["c"], 5%nat).

(** Persisting computes what was pending: the chunk lengths of an array. *)
#[global] Instance persist : Intercept.Persist (T:=T) := {|
  Intercept.persist_frame := fun X : dd_DataFrame T => X;
  Intercept.persist_array := fun a : da_Array T => ToyArray (ta_lengths a) true
|}.

Definition plain : Intercept.encoder (T:=T) :=
  Intercept.Encoder false false false false Intercept.Base.
Definition cacher : Intercept.encoder (T:=T) :=
  Intercept.Encoder true true true true
    (Intercept.DataCacher (Some "train")
       (Intercept.init_remove_keys (Intercept.RemoveStr "old,tmp"))).
Definition old_cache : gmap string (object T) :=
  {["old" := eager_frame; "keep" := eager_frame]}.

(** A scorer that counts the wrapped prediction methods of the estimator. *)
#[global] Instance scorers : Importance.Scoring (T:=T) := {|
  Importance.scoring := unit;
  Importance.scorer := unit;
  Importance.score := Z;
  Importance.bunch := Z * list (list Z);
  Importance.sk_permutation_importance := fun _ _ _ _ _ _ => Ok (0, []);
  Importance.check_random_state := fun rs =>
    match rs return result (rng T) with
    | Some n => if decide (0 <= n) then Ok (Z.to_nat n) else Err (ValueError CannotConvert)
    | None => Ok 0%nat
    end;
  Importance.compute := fun y => Ok y;
  Importance.check_scoring := fun est _ =>
    if Importance.hasattr est "predict" then Ok tt else Err TypeError;
  Importance.apply_scorer := fun _ est _ _ =>
    Ok (match est !! "predict" with
        | Some (Importance.CallAndCompute _) => 1
        | _ => 0
        end);
  Importance.shape_1 := fun X : dd_DataFrame T => length (tf_columns X);
  Importance.shuffle_partitions := fun (X : dd_DataFrame T) _ g => (Ok X, S g);
  Importance.make_bunch := fun b scores => (b, scores)
|}.

Definition default_scoring : Importance.scoring (Scoring:=scorers) := tt.

(** A label encoder over integer columns: the classes are the distinct
    values, a value is encoded by its position among them, an empty column
    cannot be fitted and an unseen value cannot be encoded. *)
Definition toy_le_fit (col : list Z) : result (list Z) :=
  if decide (col = []) then Err (ValueError CannotConvert) else Ok (remove_dups col).

Definition toy_le_transform (le : list Z) (col : list Z) : result (list Z) :=
  comprehension (fun v => match list_find (fun w => w = v) le with
                          | Some (i, _) => Ok (Z.of_nat i)
                          | None => Err (ValueError CannotConvert)
                          end) col.

Definition two_encoders : gmap nat (list Z) := {[0%nat := [1; 2]; 1%nat := [5]]}.
Definition refitted_encoders : gmap nat (list Z) := {[0%nat := [3]; 1%nat := [5]]}.

Definition classifier : gmap string Importance.callable :=
  {["fit" := Importance.Method "fit";
    "predict" := Importance.Method "predict";
    "predict_proba" := Importance.Method "predict_proba"]}.

End Toy.

(** * Properties *)

(** ** The order on cells *)

Section ScalarOrder.

Lemma string_leb_iff (a b : string) :
  String.leb a b = true <-> a = b \/ OrderedTypeEx.String_as_OT.lt a b.
Proof.
  unfold String.leb.
  destruct (String.compare a b) eqn:E.
  - apply String.compare_eq_iff in E. intuition.
  - apply OrderedTypeEx.String_as_OT.cmp_lt in E. intuition.
  - split; [discriminate|].
    intros [->|H].
    + assert (String.compare b b = Eq) as Hb
        by (apply OrderedTypeEx.String_as_OT.cmp_eq; reflexivity).
      congruence.
    + apply OrderedTypeEx.String_as_OT.cmp_lt in H.
      unfold OrderedTypeEx.String_as_OT.cmp in H. congruence.
Qed.

Lemma string_leb_trans (a b c : string) :
  String.leb a b = true -> String.leb b c = true -> String.leb a c = true.
Proof.
  rewrite !string_leb_iff. intros [->|H1] [->|H2]; auto.
  right. eapply OrderedTypeEx.String_as_OT.lt_trans; eauto.
Qed.

#[global] Instance scalar_le_trans : Transitive scalar_le.
Proof.
  intros x y z. unfold scalar_le.
  destruct x, y, z; simpl; try done; try (intros; lia).
  apply string_leb_trans.
Qed.

#[global] Instance scalar_le_total : Total scalar_le.
Proof.
  intros x y. unfold scalar_le.
  destruct x, y; simpl; try (by left); try (by right); try lia.
  apply String.leb_total.
Qed.

#[global] Instance scalar_le_antisym : AntiSymm (=) scalar_le.
Proof.
  intros x y. unfold scalar_le.
  destruct x, y; simpl; try done.
  - intros H1 H2. f_equal. by apply String.leb_antisym.
  - intros H1 H2. f_equal. lia.
Qed.

Lemma sort_values_Permutation (l1 l2 : list scalar) :
  l1 ≡ₚ l2 -> sort_values l1 = sort_values l2.
Proof.
  intros Hp. unfold sort_values.
  assert (forall f, forallb f l1 = forallb f l2) as Hf.
  { intros f. apply eq_true_iff_eq. rewrite !forallb_forall.
    split; intros H x Hx; apply H;
      apply list_elem_of_In; apply list_elem_of_In in Hx;
        first [by rewrite Hp | by rewrite <- Hp]. }
  rewrite !Hf. destruct (_ || _); [|done].
  f_equal. apply (Sorted_unique scalar_le).
  - apply Sorted_merge_sort, _.
  - apply Sorted_merge_sort, _.
  - by rewrite !merge_sort_Permutation.
Qed.

Lemma sort_values_spec (l s : list scalar) :
  sort_values l = Ok s -> StronglySorted scalar_le s /\ s ≡ₚ l.
Proof.
  unfold sort_values. destruct (_ || _); [|done].
  intros [= <-]. split.
  - apply StronglySorted_merge_sort; apply _.
  - apply merge_sort_Permutation.
Qed.

End ScalarOrder.

(** ** The encoder's dictionaries *)

Section Mappings.
Import SafeOrdinalEncoder.

Lemma last_index_lookup v cat i : last_index v cat = Some i -> cat !! i = Some v.
Proof.
  revert i. induction cat as [|k cat IH]; intros i; simpl; [done|].
  destruct (last_index v cat) as [j|].
  - intros [= <-]. by apply IH.
  - case_decide; [|done]. intros [= <-]. by subst.
Qed.

Lemma last_index_None v cat : last_index v cat = None <-> v ∉ cat.
Proof.
  induction cat as [|k cat IH]; simpl.
  - split; [intros _; apply not_elem_of_nil|done].
  - rewrite not_elem_of_cons. destruct (last_index v cat) as [j|].
    + split; [done|]. intros [_ H]. by apply IH in H.
    + case_decide; split; try done.
      * intros [H' _]. by subst.
      * intros _. split; [congruence|]. by apply IH.
Qed.

Lemma last_index_NoDup v cat i :
  NoDup cat -> cat !! i = Some v -> last_index v cat = Some i.
Proof.
  intros Hnd Hi.
  destruct (last_index v cat) as [j|] eqn:E.
  - apply last_index_lookup in E. f_equal.
    eapply NoDup_lookup; eauto.
  - apply last_index_None in E. exfalso. apply E.
    eapply list_elem_of_lookup_2; eauto.
Qed.

Lemma fill_lookup (t : np_type) (cat : list scalar) (m : gmap scalar Z) (s : Z) (v : scalar) :
  foldl (fun m kv => <[kv.1 := np_cast t (kv.2 + 1)]> m) m
        (zip cat (seqZ s (Z.of_nat (length cat)))) !! v
  = match last_index v cat with
    | Some i => Some (np_cast t (s + Z.of_nat i + 1))
    | None => m !! v
    end.
Proof.
  revert m s. induction cat as [|k cat IH]; intros m s; [done|].
  cbn [length last_index].
  rewrite seqZ_cons by lia.
  replace (Z.pred (Z.of_nat (S (length cat)))) with (Z.of_nat (length cat)) by lia.
  cbn [zip zip_with foldl]. rewrite IH. cbn [fst snd].
  destruct (last_index v cat) as [i|].
  - do 2 f_equal. lia.
  - case_decide as Hk.
    + subst. rewrite lookup_insert_eq. do 2 f_equal. lia.
    + by rewrite lookup_insert_ne.
Qed.

Lemma make_mapping_lookup (t : np_type) (cat : list scalar) (v : scalar) :
  make_mapping t cat !! v = (fun i => np_cast t (Z.of_nat i + 1)) <$> last_index v cat.
Proof.
  unfold make_mapping. rewrite fill_lookup.
  destruct (last_index v cat); simpl; [do 2 f_equal; lia|apply lookup_empty].
Qed.


Lemma make_mapping_not_elem (t : np_type) (cat : list scalar) (v : scalar) :
  v ∉ cat -> make_mapping t cat !! v = None.
Proof.
  intros Hv. rewrite make_mapping_lookup.
  apply last_index_None in Hv. by rewrite Hv.
Qed.

Lemma make_mapping_NoDup (t : np_type) (cat : list scalar) (i : nat) (v : scalar) :
  NoDup cat -> cat !! i = Some v ->
  make_mapping t cat !! v = Some (np_cast t (Z.of_nat i + 1)).
Proof.
  intros Hnd Hi. rewrite make_mapping_lookup.
  by rewrite (last_index_NoDup _ _ _ Hnd Hi).
Qed.


Lemma wrap_signed_small (w n : Z) :
  (0 < w)%Z -> (0 <= n < 2 ^ (w - 1))%Z -> wrap_signed w n = n.
Proof.
  intros Hw Hn. unfold wrap_signed.
  assert (2 ^ w = 2 * 2 ^ (w - 1))%Z as Hpow.
  { replace w with (Z.succ (w - 1)) at 1 by lia. apply Z.pow_succ_r. lia. }
  rewrite Z.mod_small; lia.
Qed.

Lemma wrap_unsigned_small (w n : Z) :
  (0 <= n < 2 ^ w)%Z -> wrap_unsigned w n = n.
Proof. intros Hn. unfold wrap_unsigned. by apply Z.mod_small. Qed.

End Mappings.

Section EncoderLemmas.
Import SafeOrdinalEncoder.

Lemma for_each_insert {V} (f : string -> result V)
    (body : gmap string V -> string -> result (gmap string V)) cs :
  (forall d c, body d c = (v ← f c; Ok (<[c := v]> d))) ->
  forall d0 d, for_each body d0 cs = Ok d ->
    (forall c, c ∈ cs -> exists v, f c = Ok v /\ d !! c = Some v) /\
    (forall c, c ∉ cs -> d !! c = d0 !! c).
Proof.
  intros Hbody. induction cs as [|c0 cs IH]; intros d0 d; simpl.
  - intros [= <-]. split; [intros c Hc; by apply elem_of_nil in Hc|done].
  - rewrite Hbody. destruct (f c0) as [v0|e] eqn:Hf; [|done]. simpl.
    intros Hrest. destruct (IH _ _ Hrest) as [Hin Hout]. split.
    + intros c Hc. destruct (decide (c ∈ cs)) as [Hcs|Hcs]; [by apply Hin|].
      apply elem_of_cons in Hc as [->|Hc]; [|done].
      exists v0. split; [done|]. rewrite (Hout _ Hcs). apply lookup_insert_eq.
    + intros c Hc. apply not_elem_of_cons in Hc as [Hne Hc].
      rewrite (Hout _ Hc). by apply lookup_insert_ne.
Qed.

Lemma for_each_insert_total {V} (f : string -> result V)
    (body : gmap string V -> string -> result (gmap string V)) cs :
  (forall d c, body d c = (v ← f c; Ok (<[c := v]> d))) ->
  (forall c, c ∈ cs -> is_ok (f c) = true) ->
  forall d0, exists d, for_each body d0 cs = Ok d.
Proof.
  intros Hbody. induction cs as [|c0 cs IH]; intros Hok d0; simpl; [by eexists|].
  rewrite Hbody.
  assert (is_ok (f c0) = true) as H0 by (apply Hok, elem_of_cons; by left).
  destruct (f c0) as [v0|e]; [|done]. simpl.
  apply IH. intros c Hc. apply Hok, elem_of_cons. by right.
Qed.

Lemma make_mappings_lookup cols categories t mappings col :
  make_mappings cols categories t = Ok mappings ->
  col ∈ cols ->
  exists cat, categories !! col = Some cat /\ mappings !! col = Some (make_mapping t cat).
Proof.
  intros Hm Hcol.
  pose (f := fun c => make_mapping t <$> dict_get categories c).
  unfold make_mappings in Hm.
  apply (for_each_insert f) in Hm as [Hin _];
    [|intros d c; unfold f, dict_get; by destruct (categories !! c)].
  destruct (Hin _ Hcol) as (v & Hv & Hl).
  unfold f, dict_get in Hv. destruct (categories !! col) as [cat|]; [|done].
  exists cat. split; [done|]. by injection Hv as <-.
Qed.

Lemma make_mappings_total cols (categories : gmap string (list scalar)) t :
  (forall c, c ∈ cols -> is_Some (categories !! c)) ->
  exists mappings, make_mappings cols categories t = Ok mappings.
Proof.
  intros Hall.
  pose (f := fun c => make_mapping t <$> dict_get categories c).
  unfold make_mappings. apply (for_each_insert_total f).
  - intros d c. unfold f, dict_get. by destruct (categories !! c).
  - intros c Hc. destruct (Hall c Hc) as [cat Hcat].
    unfold f, dict_get. by rewrite Hcat.
Qed.

Lemma encode_column_spec mappings x c m :
  mappings !! c = Some m ->
  exists m', encode_column mappings x c = Ok (code_of m x, <[c := m']> mappings) /\
             forall y, code_of m' y = code_of m y.
Proof.
  intros Hm. unfold encode_column, dict_get, code_of. rewrite Hm. simpl.
  destruct (m !! x) as [v|] eqn:Hx; simpl.
  - exists m. split; [|done]. by rewrite insert_id.
  - exists (<[x := 0]> m). split; [done|].
    intros y. destruct (decide (x = y)) as [->|Hne].
    + by rewrite lookup_insert_eq, Hx.
    + by rewrite lookup_insert_ne.
Qed.

Lemma vectorize_encode_spec values : forall mappings c m,
  mappings !! c = Some m ->
  exists m', vectorize_encode mappings values c
             = Ok (code_of m <$> values, <[c := m']> mappings) /\
             forall y, code_of m' y = code_of m y.
Proof.
  induction values as [|x values IH]; intros mappings c m Hm.
  - exists m. simpl. split; [|done]. by rewrite insert_id.
  - destruct (encode_column_spec mappings x c m Hm) as (m1 & He & Hagree).
    destruct (IH (<[c := m1]> mappings) c m1) as (m2 & Hv & Hagree2);
      [apply lookup_insert_eq|].
    exists m2. cbn [vectorize_encode]. rewrite He. cbn. rewrite Hv. cbn.
    split.
    + rewrite insert_insert_eq. do 3 f_equal.
      apply list_fmap_ext. intros ? y _. apply Hagree.
    + intros y. by rewrite Hagree2.
Qed.

End EncoderLemmas.

Section FitLemmas.
Import SafeOrdinalEncoder.

Lemma getitem_ok_elem (X : pdf) c k :
  getitem X c = Ok k -> col_name k = c /\ c ∈ pdf_columns X.
Proof.
  induction X as [|k0 X IH]; simpl; [done|].
  case_decide as Hk.
  - intros [= <-]. split; [done|]. rewrite <- Hk. apply elem_of_cons. by left.
  - intros H. destruct (IH H) as [? ?]. split; [done|]. apply elem_of_cons. by right.
Qed.

Lemma getitem_elem_ok (X : pdf) c :
  c ∈ pdf_columns X -> exists k, getitem X c = Ok k.
Proof.
  induction X as [|k0 X IH]; simpl.
  - intros H. by apply elem_of_nil in H.
  - intros H. case_decide as Hk; [by eexists|].
    apply elem_of_cons in H as [->|H]; [done|]. by apply IH.
Qed.

Lemma for_each_check {A} (g : A -> result unit) cs :
  for_each (fun _ c => g c) tt cs = Ok tt -> forall c, c ∈ cs -> g c = Ok tt.
Proof.
  induction cs as [|c0 cs IH]; simpl.
  - intros _ c Hc. by apply elem_of_nil in Hc.
  - destruct (g c0) as [[]|e] eqn:Hg; [|done]. simpl.
    intros H c Hc. apply elem_of_cons in Hc as [->|Hc]; [done|]. by apply IH.
Qed.

(** What [fit] leaves on the encoder. *)
Lemma fit_inv (p : params) (X : ddf) (self : encoder) :
  fit p X = Ok self ->
  enc_columns self = p_columns p /\
  enc_dtype self = p_dtype p /\
  columns_ self = ddf_columns X /\
  categorical_columns_ self
    = match p_columns p with None => select_dtypes (dd_meta X) | Some cs => cs end /\
  forall col, col ∈ categorical_columns_ self ->
    exists k cats sorted,
      getitem (dd_meta X) col = Ok k /\
      dtypes_ self !! col = Some (col_dtype k) /\
      cat_categories X col = Ok cats /\
      sort_values cats = Ok sorted /\
      categories_ self !! col = Some sorted.
Proof.
  unfold fit.
  destruct (for_each _ ∅ (ddf_columns X)) as [dts|] eqn:Hdt; [|done]. cbn.
  set (cols := match p_columns p with None => _ | Some cs => cs end).
  destruct (for_each _ tt cols) as [[]|] eqn:Hchk; [|done]. cbn.
  destruct (index_drop _ _) as [nc|]; [|done]. cbn.
  destruct (for_each _ ∅ cols) as [cs|] eqn:Hcat; [|done]. cbn.
  intros [= <-]. cbn. repeat split; try done.
  intros col Hcol.
  pose proof (for_each_check
    (fun c => _ ← getitem (dd_meta X) c; Ok tt) cols Hchk col Hcol) as Hg.
  cbv beta in Hg.
  destruct (getitem (dd_meta X) col) as [k|] eqn:Hk; [|done].
  apply (for_each_insert (fun c => col_dtype <$> getitem (dd_meta X) c)) in Hdt
    as [Hdin _]; [|intros d c; by destruct (getitem (dd_meta X) c)].
  destruct (Hdin col) as (dt & Hdt1 & Hdt2); [by apply (getitem_ok_elem _ _ k)|].
  rewrite Hk in Hdt1. injection Hdt1 as <-.
  apply (for_each_insert (fun c => cats ← cat_categories X c; sort_values cats)) in Hcat
    as [Hcin _].
  2: { intros d c. destruct (cat_categories X c) as [cats|]; [|done]. cbn.
       by destruct (sort_values cats). }
  destruct (Hcin col Hcol) as (sorted & Hs1 & Hs2).
  destruct (cat_categories X col) as [cats|] eqn:Hcc; [|done]. cbn in Hs1.
  by exists k, cats, sorted.
Qed.

End FitLemmas.

(** ** Encoding and decoding a column *)

Section RoundTrip.
Import SafeOrdinalEncoder.

Lemma decode_column_in_range categories dtypes col cat (i : nat) v :
  categories !! col = Some cat ->
  cat !! i = Some v ->
  decode_column categories dtypes (SNum (Z.of_nat i + 1)) col = Ok v.
Proof.
  intros Hc Hi. unfold decode_column, dict_get. rewrite Hc. cbn.
  pose proof (lookup_lt_Some _ _ _ Hi) as Hlt.
  replace (Z.of_nat i + 1 <=? Z.of_nat (length cat))%Z with true by lia.
  replace (1 <=? Z.of_nat i + 1)%Z with true by lia. cbn.
  replace (Z.to_nat (Z.of_nat i + 1 - 1)) with i by lia.
  by rewrite Hi.
Qed.

Lemma decode_column_unknown categories dtypes col cat dt (x : Z) :
  categories !! col = Some cat ->
  dtypes !! col = Some dt ->
  (x < 1 \/ Z.of_nat (length cat) < x)%Z ->
  decode_column categories dtypes (SNum x) col = Ok (unknown_marker dt).
Proof.
  intros Hc Hd Hx. unfold decode_column, dict_get. rewrite Hc. cbn.
  replace ((x <=? Z.of_nat (length cat))%Z && (1 <=? x)%Z) with false
    by (symmetry; apply andb_false_iff; lia).
  rewrite Hd. cbn. by destruct dt.
Qed.






End RoundTrip.

(** ** Encoding and decoding a table *)

Section Frames.
Import SafeOrdinalEncoder.


Lemma getitem_unique (Y : pdf) c k k' :
  NoDup (pdf_columns Y) -> getitem Y c = Ok k -> k' ∈ Y -> col_name k' = c -> k' = k.
Proof.
  induction Y as [|k0 Y IH]; simpl; [done|].
  intros Hnd. apply NoDup_cons in Hnd as [Hk0 Hnd].
  case_decide as Hc.
  - intros [= <-] Hin Hname. apply elem_of_cons in Hin as [->|Hin]; [done|].
    exfalso. apply Hk0. rewrite Hc, <- Hname.
    unfold pdf_columns. by apply list_elem_of_fmap_2.
  - intros Hg Hin Hname. apply elem_of_cons in Hin as [->|Hin]; [done|].
    by apply IH.
Qed.

Lemma setitem_fmap (Y : pdf) c dt r :
  NoDup (pdf_columns Y) -> c ∈ pdf_columns Y ->
  setitem Y c dt r = (fun k => if decide (col_name k = c) then Column c dt r else k) <$> Y.
Proof.
  induction Y as [|k0 Y IH]; simpl.
  - intros _ H. by apply elem_of_nil in H.
  - intros Hnd Hc. apply NoDup_cons in Hnd as [Hk0 Hnd].
    case_decide as Hk.
    + f_equal. symmetry. rewrite <- (list_fmap_id Y) at 2.
      apply list_fmap_ext. intros i k Hi. cbn.
      case_decide as Hk'; [|done].
      exfalso. apply Hk0. rewrite Hk, <- Hk'.
      unfold pdf_columns. apply list_elem_of_fmap_2. by eapply list_elem_of_lookup_2.
    + f_equal. apply IH; [done|].
      apply elem_of_cons in Hc as [->|Hc]; [done|done].
Qed.

Lemma pdf_columns_fmap (f : column -> column) (Y : pdf) :
  (forall k, col_name (f k) = col_name k) ->
  pdf_columns (f <$> Y) = pdf_columns Y.
Proof.
  intros Hf. unfold pdf_columns. rewrite <- list_fmap_compose.
  apply list_fmap_ext. intros i k _. apply Hf.
Qed.

Lemma agree_insert m0 m1 c d1 d' :
  agree m0 m1 -> m1 !! c = Some d1 -> (forall y, code_of d' y = code_of d1 y) ->
  agree m0 (<[c := d']> m1).
Proof.
  intros Ha Hc Hd c0 d0 H0. destruct (Ha c0 d0 H0) as (d & Hd1 & Hy).
  destruct (decide (c = c0)) as [->|Hne].
  - exists d'. rewrite lookup_insert_eq. split; [done|].
    intros y. rewrite Hd. assert (d = d1) as -> by congruence. apply Hy.
  - exists d. by rewrite lookup_insert_ne.
Qed.

Lemma safe_ordinal_encoder_spec (t : np_type) (m0 : gmap string (gmap scalar Z)) cols :
  forall (Y : pdf) (m : gmap string (gmap scalar Z)),
    NoDup cols ->
    NoDup (pdf_columns Y) ->
    (forall c, c ∈ cols -> c ∈ pdf_columns Y /\ is_Some (m0 !! c)) ->
    agree m0 m ->
    exists m', safe_ordinal_encoder cols t m Y = Ok (encode_frame cols (np_dtype t) m0 Y, m').
Proof.
  unfold safe_ordinal_encoder.
  induction cols as [|c cols IH]; intros Y m Hnd HndY Hin Hag.
  - exists m. cbn. do 2 f_equal. unfold encode_frame.
    rewrite <- (list_fmap_id Y) at 1. apply list_fmap_ext. intros i k _. cbn.
    case_decide as H; [by apply elem_of_nil in H|done].
  - apply NoDup_cons in Hnd as [Hc Hnd].
    destruct (Hin c) as [HcY [d0 Hd0]]; [apply elem_of_cons; by left|].
    destruct (getitem_elem_ok Y c HcY) as [k Hk].
    destruct (Hag c d0 Hd0) as (d1 & Hd1 & Hcode).
    destruct (vectorize_encode_spec (col_values k) m c d1 Hd1) as (d' & Hv & Hd').
    cbn [for_each]. rewrite Hk. cbn. rewrite Hv. cbn.
    set (Y1 := setitem Y c (np_dtype t) _).
    assert (Y1 = (fun k' => if decide (col_name k' = c)
                            then encoded_column (np_dtype t) m0 k' else k') <$> Y) as HY1.
    { unfold Y1. rewrite setitem_fmap by done.
      apply list_fmap_ext. intros i k' Hi. cbn.
      case_decide as Hn; [|done].
      assert (k' = k) as ->
        by (eapply getitem_unique; eauto; by eapply list_elem_of_lookup_2).
      unfold encoded_column. rewrite Hn, Hd0. cbn.
      f_equal. rewrite <- list_fmap_compose.
      apply list_fmap_ext. intros j v _. cbn. by rewrite Hcode. }
    assert (pdf_columns Y1 = pdf_columns Y) as Hcols.
    { rewrite HY1. apply pdf_columns_fmap. intros k'. by case_decide. }
    destruct (IH Y1 (<[c := d']> m)) as [m' Hm']; try done.
    + by rewrite Hcols.
    + intros c' Hc'. rewrite Hcols. apply Hin, elem_of_cons. by right.
    + by eapply agree_insert.
    + exists m'. rewrite Hm'. do 2 f_equal.
      unfold encode_frame. rewrite HY1, <- list_fmap_compose.
      apply list_fmap_ext. intros i k' _. cbn.
      destruct (decide (col_name k' = c)) as [Hn|Hn].
      * rewrite decide_False by (cbn; by rewrite Hn).
        rewrite decide_True; [done|]. apply elem_of_cons. by left.
      * destruct (decide (col_name k' ∈ cols)) as [Hi|Hi].
        -- rewrite decide_True; [done|]. apply elem_of_cons. by right.
        -- rewrite decide_False; [done|]. rewrite not_elem_of_cons. done.
Qed.

End Frames.

Section FramesDecode.
Import SafeOrdinalEncoder.




End FramesDecode.

Section RoundTripClaim.
Import SafeOrdinalEncoder Scenario.



End RoundTripClaim.

(** ** The marker for unknown codes *)

Section UnknownMarker.
Import SafeOrdinalEncoder Scenario.

(** What [decode_column] returns, dtype by dtype.  For a categorical column
    of a fitted encoder, a code in [1 .. size] decodes to the category at
    that 1-based position; any other code (0, negative, above the size)
    decodes to not-a-number when the recorded dtype is float32 or float64,
    to -1 when it is int32, int64, uint32 or uint64, and to None for every
    other dtype, the 8 and 16 bit integers among them. *)
Lemma decode_by_dtype (p : params) (X : ddf) (self : encoder) (col : string) :
  fit p X = Ok self ->
  col ∈ categorical_columns_ self ->
  exists cat dt,
    categories_ self !! col = Some cat /\
    dtypes_ self !! col = Some dt /\
    forall x : Z,
      ((1 <= x <= Z.of_nat (length cat))%Z ->
       exists v, cat !! Z.to_nat (x - 1) = Some v /\
                 decode_column (categories_ self) (dtypes_ self) (SNum x) col = Ok v) /\
      ((x < 1 \/ Z.of_nat (length cat) < x)%Z ->
       decode_column (categories_ self) (dtypes_ self) (SNum x) col
       = Ok match dt with
            | Float32 | Float64 => SNaN
            | Int32 | Int64 | UInt32 | UInt64 => SNum (-1)
            | _ => SNone
            end).
Proof.
  intros Hfit Hcol.
  destruct (fit_inv _ _ _ Hfit) as (_ & _ & _ & _ & Hcats).
  destruct (Hcats col Hcol) as (k & cats & cat & _ & Hdt & _ & _ & Hcat).
  exists cat, (col_dtype k). split_and!; try done.
  intros x. split.
  - intros Hx.
    destruct (lookup_lt_is_Some_2 cat (Z.to_nat (x - 1))) as [v Hv]; [lia|].
    exists v. split; [done|].
    replace x with (Z.of_nat (Z.to_nat (x - 1)) + 1)%Z at 1 by lia.
    by eapply decode_column_in_range.
  - intros Hx. by eapply decode_column_unknown.
Qed.

Lemma decode_by_dtype_witness :
  fit sizes_params sizes = Ok sizes_encoder /\
  "size" ∈ categorical_columns_ sizes_encoder /\
  exists cat dt,
    categories_ sizes_encoder !! "size" = Some cat /\
    dtypes_ sizes_encoder !! "size" = Some dt /\
    forall x : Z,
      ((1 <= x <= Z.of_nat (length cat))%Z ->
       exists v, cat !! Z.to_nat (x - 1) = Some v /\
                 decode_column (categories_ sizes_encoder) (dtypes_ sizes_encoder)
                               (SNum x) "size" = Ok v) /\
      ((x < 1 \/ Z.of_nat (length cat) < x)%Z ->
       decode_column (categories_ sizes_encoder) (dtypes_ sizes_encoder) (SNum x) "size"
       = Ok match dt with
            | Float32 | Float64 => SNaN
            | Int32 | Int64 | UInt32 | UInt64 => SNum (-1)
            | _ => SNone
            end).
Proof.
  assert (fit sizes_params sizes = Ok sizes_encoder) as Hfit by (vm_compute; reflexivity).
  assert ("size" ∈ categorical_columns_ sizes_encoder) as Hcol
    by (apply elem_of_cons; left; reflexivity).
  split; [exact Hfit|]. split; [exact Hcol|].
  exact (decode_by_dtype sizes_params sizes sizes_encoder "size" Hfit Hcol).
Defined.

(** Read with every integer width, the rule does not hold of the code: it
    fails on the 16-bit column. *)
Lemma decode_by_kind_counterexample :
  ~ (forall (p : params) (X : ddf) (self : encoder) (col : string),
       fit p X = Ok self ->
       col ∈ categorical_columns_ self ->
       exists cat dt,
         categories_ self !! col = Some cat /\
         dtypes_ self !! col = Some dt /\
         forall x : Z,
           (x < 1 \/ Z.of_nat (length cat) < x)%Z ->
           decode_column (categories_ self) (dtypes_ self) (SNum x) col
           = Ok (marker_by_kind dt)).
Proof.
  intros H.
  destruct (H sizes_params sizes sizes_encoder "size") as (cat & dt & Hc & Hd & Hx).
  - vm_compute; reflexivity.
  - apply elem_of_cons; left; reflexivity.
  - vm_compute in Hd. injection Hd as <-.
    specialize (Hx 0%Z ltac:(lia)). vm_compute in Hx. discriminate Hx.
Qed.

(** C7, on the code.  An encoder fitted on a 16-bit integer column:
    [decode_column] returns None for code 0, where an integer dtype calls
    for -1, and None cannot be stored in the 16-bit integer array that
    [np.vectorize] is asked for, so [inverse_transform] of a column that
    holds code 0, or a code above the vocabulary size, raises [TypeError];
    a column of codes 1 and 2 alone decodes to the categories at those
    positions.  The 32 and 64 bit integer dtypes do get -1, which an
    unsigned array holds as its largest number, and float32 and float64 get
    not-a-number: the 8 and 16 bit widths are missing from the tuple that
    [decode_column] tests the dtype against, and all of them raise. *)
Theorem decode_int16_unknown :
  fit sizes_params sizes = Ok sizes_encoder /\
  dtypes_ sizes_encoder !! "size" = Some Int16 /\
  is_integer_dtype Int16 = true /\
  marker_by_kind Int16 = SNum (-1) /\
  decode_column (categories_ sizes_encoder) (dtypes_ sizes_encoder) (SNum 0) "size" = Ok SNone /\
  decode_column (categories_ sizes_encoder) (dtypes_ sizes_encoder) (SNum 7) "size" = Ok SNone /\
  store Int16 SNone = Err TypeError /\
  inverse_transform sizes_encoder
    (Table (PdDataFrame [Column "size" Float64 [SNum 2; SNum 0; SNum 7; SNum 1]]))
  = Err TypeError /\
  inverse_transform sizes_encoder
    (Table (PdDataFrame [Column "size" Float64 [SNum 2; SNum 1]]))
  = Ok (PdDataFrame [Column "size" Int16 [SNum 20; SNum 10]]) /\
  (forall dt, dt ∈ [Int32; Int64; UInt32; UInt64] -> unknown_marker dt = SNum (-1)) /\
  store UInt32 (SNum (-1)) = Ok (SNum 4294967295) /\
  (forall dt, dt ∈ [Int8; Int16; UInt8; UInt16] ->
     unknown_marker dt = SNone /\ store dt SNone = Err TypeError).
Proof.
  split_and!; try by vm_compute.
  - intros dt Hdt. rewrite !elem_of_cons in Hdt.
    destruct Hdt as [->|[->|[->|[->|Hdt]]]]; try done. by apply elem_of_nil in Hdt.
  - intros dt Hdt. rewrite !elem_of_cons in Hdt.
    destruct Hdt as [->|[->|[->|[->|Hdt]]]]; try done. by apply elem_of_nil in Hdt.
Qed.

End UnknownMarker.

(** ** The fitted vocabulary *)

Section Vocabulary.
Import SafeOrdinalEncoder Scenario.

Lemma elem_of_distinct_values (vs : list scalar) v :
  v ∈ distinct_values vs <-> v ∈ vs /\ notnull v = true.
Proof. unfold distinct_values. rewrite elem_of_remove_dups, list_elem_of_filter. tauto. Qed.

Lemma declared_categories_spec dt cs :
  declared_categories dt = Some cs ->
  exists cs0, dt = Category (Some cs0) /\ cs = distinct_values cs0.
Proof.
  destruct dt as [| | | | | | | | | | | |[cs0|]]; try done.
  intros [= <-]. by exists cs0.
Qed.

Lemma comprehension_Forall {A B} (f : A -> result B) (P : B -> Prop) xs ys :
  (forall x y, f x = Ok y -> P y) ->
  comprehension f xs = Ok ys -> Forall P ys.
Proof.
  intros Hf. revert ys. induction xs as [|x xs IH]; intros ys; cbn.
  - intros [= <-]. constructor.
  - destruct (f x) as [y|] eqn:Hy; [|done]. cbn.
    destruct (comprehension f xs) as [zs|]; [|done]. cbn.
    intros [= <-]. constructor; [by eapply Hf|by apply IH].
Qed.

Lemma partition_categories_notnull p c cs :
  partition_categories p c = Ok cs -> Forall (fun v => notnull v = true) cs.
Proof.
  unfold partition_categories. destruct (getitem p c) as [k|]; [|done]. cbn.
  intros [= <-]. apply Forall_forall. intros v.
  destruct (declared_categories (col_dtype k)) as [cs|] eqn:Hd; cbn.
  - apply declared_categories_spec in Hd as (cs0 & _ & ->).
    rewrite elem_of_distinct_values. tauto.
  - rewrite elem_of_distinct_values. tauto.
Qed.

(** The partitions of a column that is categorical nowhere give its values. *)
Lemma partitions_undeclared c ps chunks :
  forallb (fun p => match getitem p c with
                    | Ok k => bool_decide (declared_categories (col_dtype k) = None)
                    | Err _ => true
                    end) ps = true ->
  comprehension (fun p => partition_categories p c) ps = Ok chunks ->
  exists vss, comprehension (fun p => col_values <$> getitem p c) ps = Ok vss /\
              forall v, v ∈ List.concat chunks <-> v ∈ List.concat vss /\ notnull v = true.
Proof.
  revert chunks. induction ps as [|p ps IH]; intros chunks; cbn.
  - intros _ [= <-]. exists []. split; [done|]. intros v. cbn.
    split; [intros H; by apply elem_of_nil in H|intros [H _]; by apply elem_of_nil in H].
  - rewrite andb_true_iff. intros [Hp Hps].
    assert (partition_categories p c
            = (k ← getitem p c;
               Ok (default (distinct_values (col_values k))
                           (declared_categories (col_dtype k))))) as -> by done.
    destruct (getitem p c) as [k|]; [|done].
    apply bool_decide_eq_true in Hp. cbn. rewrite Hp. cbn.
    destruct (comprehension _ ps) as [chunks'|] eqn:Hc; [|done]. cbn.
    intros [= <-].
    destruct (IH chunks' Hps eq_refl) as (vss & Hvss & Hiff).
    exists (col_values k :: vss). rewrite Hvss. split; [done|].
    intros v. cbn. rewrite !elem_of_app, elem_of_distinct_values, Hiff. tauto.
Qed.

(** What [categorize] finds for a column: no value twice and no null; the
    values observed when the column is categorical nowhere; the categories
    that [_meta] declares when it declares some. *)
Lemma cat_categories_inv X c cats :
  cat_categories X c = Ok cats ->
  NoDup cats /\
  Forall (fun v => notnull v = true) cats /\
  (undeclared X c = true ->
   exists vs, column_values X c = Ok vs /\
              forall v, v ∈ cats <-> v ∈ vs /\ notnull v = true) /\
  (forall k cs, getitem (dd_meta X) c = Ok k -> col_dtype k = Category (Some cs) ->
                cats = distinct_values cs).
Proof.
  unfold cat_categories, undeclared. cbn [forallb].
  destruct (getitem (dd_meta X) c) as [k|] eqn:Hk; [|done]. cbn.
  destruct (declared_categories (col_dtype k)) as [cs|] eqn:Hd.
  - intros [= <-].
    destruct (declared_categories_spec _ _ Hd) as (cs0 & Hdt & ->).
    split_and!.
    + apply NoDup_remove_dups.
    + apply Forall_forall. intros v. rewrite elem_of_distinct_values. tauto.
    + rewrite bool_decide_eq_false_2 by done. done.
    + intros k' cs' [= <-] Hdt'. congruence.
  - destruct (comprehension _ (dd_partitions X)) as [chunks|] eqn:Hc; [|done]. cbn.
    intros [= <-]. split_and!.
    + apply NoDup_remove_dups.
    + apply Forall_forall. intros v. rewrite elem_of_remove_dups.
      intros Hv. apply list_elem_of_In, in_concat in Hv as (chunk & Hchunk & Hv).
      apply list_elem_of_In in Hchunk, Hv.
      pose proof (comprehension_Forall _ (Forall (fun v => notnull v = true)) _ _
                    (fun q cs => partition_categories_notnull q c cs) Hc) as Hall.
      rewrite Forall_forall in Hall. specialize (Hall _ Hchunk).
      rewrite Forall_forall in Hall. by apply Hall.
    + intros Hps.
      destruct (partitions_undeclared c _ _ Hps Hc) as (vss & Hvss & Hiff).
      exists (List.concat vss). unfold column_values. rewrite Hvss. split; [done|].
      intros v. by rewrite elem_of_remove_dups.
    + intros k' cs' [= <-] Hdt'. rewrite Hdt' in Hd. done.
Qed.

(** C2, as amended.  For a column selected at fit time the vocabulary is
    sorted and holds no value twice.  When the column is not categorical
    yet, the vocabulary holds exactly the non-null values observed in it,
    and a second fit on any table whose column holds the same set of
    values, in whatever row order and partition layout, stores the same
    vocabulary.  When the table already declares the column's categories,
    the vocabulary holds exactly those, observed or not.  The encoder's
    dictionary gives the value at position [i] (counted from 0) the number
    [dtype(i + 1)], which is [i + 1] whenever the numeric type holds the
    positions of the vocabulary as they are.  On the scenario: the
    partitions [red] and [blue] give the vocabulary [blue, red] with codes
    1 and 2, the one-partition layout gives the same encoder, and
    transforming [red, green] gives the codes [2, 0]. *)
Theorem vocabulary_sorted_dedup (p : params) (X : ddf) (self : encoder) (col : string) :
  fit p X = Ok self ->
  col ∈ categorical_columns_ self ->
  (exists cat,
     categories_ self !! col = Some cat /\
     StronglySorted scalar_le cat /\
     NoDup cat /\
     (undeclared X col = true ->
      exists vs,
        column_values X col = Ok vs /\
        (forall v, v ∈ cat <-> v ∈ vs /\ notnull v = true) /\
        (forall p' X' self' vs',
           fit p' X' = Ok self' ->
           col ∈ categorical_columns_ self' ->
           undeclared X' col = true ->
           column_values X' col = Ok vs' ->
           (forall v, v ∈ vs' <-> v ∈ vs) ->
           categories_ self' !! col = Some cat)) /\
     (forall k cs,
        getitem (dd_meta X) col = Ok k ->
        col_dtype k = Category (Some cs) ->
        forall v, v ∈ cat <-> v ∈ cs /\ notnull v = true) /\
     (forall (i : nat) v,
        cat !! i = Some v ->
        make_mapping (enc_dtype self) cat !! v
        = Some (np_cast (enc_dtype self) (Z.of_nat i + 1))) /\
     (holds_codes (enc_dtype self) (length cat) ->
      forall (i : nat) v,
        cat !! i = Some v ->
        make_mapping (enc_dtype self) cat !! v = Some (Z.of_nat i + 1)%Z)) /\
  fit (Params None np_float64) train = Ok scenario_encoder /\
  fit (Params None np_float64) train_one_partition = Ok scenario_encoder /\
  make_mapping np_float64 [SStr "blue"; SStr "red"]
  = {[SStr "blue" := 1%Z; SStr "red" := 2%Z]} /\
  transform scenario_encoder (PdDataFrame (color ["red"; "green"]))
  = Ok (PdDataFrame [Column "color" Float64 [SNum 2; SNum 0]]).
Proof.
  intros Hfit Hcol. split; [|by vm_compute].
  destruct (fit_inv _ _ _ Hfit) as (_ & _ & _ & _ & Hcats).
  destruct (Hcats col Hcol) as (k & cats & cat & Hk & _ & Hcc & Hsort & Hcat).
  destruct (cat_categories_inv _ _ _ Hcc) as (Hndc & _ & Hplain & Hdecl).
  destruct (sort_values_spec _ _ Hsort) as [Hsorted Hperm].
  assert (NoDup cat) as Hnd by (by rewrite Hperm).
  exists cat. split_and!; try done.
  - intros Hun. destruct (Hplain Hun) as (vs & Hvs & Hiff).
    exists vs. split_and!; [done|intros v; by rewrite Hperm|].
    intros p' X' self' vs' Hfit' Hcol' Hun' Hvs' Hsame.
    destruct (fit_inv _ _ _ Hfit') as (_ & _ & _ & _ & Hcats').
    destruct (Hcats' col Hcol') as (k' & cats' & cat' & _ & _ & Hcc' & Hsort' & Hcat').
    destruct (cat_categories_inv _ _ _ Hcc') as (Hndc' & _ & Hplain' & _).
    destruct (Hplain' Hun') as (vs'' & Hvs'' & Hiff').
    assert (vs'' = vs') as -> by congruence.
    rewrite Hcat'. f_equal.
    rewrite (sort_values_Permutation _ cats) in Hsort'; [congruence|].
    apply NoDup_Permutation; try done.
    intros v. rewrite Hiff, Hiff', Hsame. tauto.
  - intros k' cs Hk' Hdt v. rewrite Hperm, (Hdecl k' cs Hk' Hdt).
    apply elem_of_distinct_values.
  - intros i v Hi. by apply make_mapping_NoDup.
  - intros Hex i v Hi. rewrite (make_mapping_NoDup _ _ i) by done.
    f_equal. apply Hex. pose proof (lookup_lt_Some _ _ _ Hi). lia.
Qed.

Lemma vocabulary_sorted_dedup_witness :
  fit (Params None np_float64) train = Ok scenario_encoder /\
  "color" ∈ categorical_columns_ scenario_encoder /\
  exists cat,
    categories_ scenario_encoder !! "color" = Some cat /\
    StronglySorted scalar_le cat /\
    NoDup cat /\
    exists vs, column_values train "color" = Ok vs /\
               forall v, v ∈ cat <-> v ∈ vs /\ notnull v = true.
Proof.
  assert (fit (Params None np_float64) train = Ok scenario_encoder) as Hfit
    by (vm_compute; reflexivity).
  assert ("color" ∈ categorical_columns_ scenario_encoder) as Hcol
    by (apply elem_of_cons; left; reflexivity).
  split; [exact Hfit|]. split; [exact Hcol|].
  destruct (vocabulary_sorted_dedup _ _ _ _ Hfit Hcol)
    as [(cat & H1 & H2 & H3 & H4 & _) _].
  destruct (H4 eq_refl) as (vs & H5 & H6 & _).
  exists cat. split_and!; try assumption. by exists vs.
Defined.

(** The claim as first stated, with the vocabulary made of the observed
    values for every selected column: a column whose dtype declares the
    categories [a, b, z] and that holds [a] alone is given all three. *)
Lemma vocabulary_observed_counterexample :
  ~ (forall (p : params) (X : ddf) (self : encoder) (col : string),
       fit p X = Ok self ->
       col ∈ categorical_columns_ self ->
       exists cat vs,
         categories_ self !! col = Some cat /\
         column_values X col = Ok vs /\
         forall v, v ∈ cat <-> v ∈ vs /\ notnull v = true).
Proof.
  intros H.
  destruct (H (Params None np_float64) graded graded_encoder "grade")
    as (cat & vs & Hcat & Hvs & Hiff).
  - vm_compute; reflexivity.
  - apply elem_of_cons; left; reflexivity.
  - vm_compute in Hcat. injection Hcat as <-.
    vm_compute in Hvs. injection Hvs as <-.
    destruct (Hiff (SStr "b")) as [Hb _].
    destruct Hb as [Hb _].
    + apply elem_of_cons; right; apply elem_of_cons; left; reflexivity.
    + apply list_elem_of_singleton in Hb. discriminate Hb.
Qed.

End Vocabulary.


(** ** Metadata repair *)

Section Repair.
Import Dask.
Context {T : carriers} `{!Library T}.

Lemma make_chunk_size_known_inv (a r : object T) :
  make_chunk_size_known a = Ok r ->
  exists a0 r0, a = DaskArray a0 /\ r = DaskArray r0 /\
    ((any_unknown (chunks a0) = false /\ r0 = a0) \/
     (any_unknown (chunks a0) = true /\ compute_chunk_sizes a0 = Ok r0)).
Proof.
  unfold make_chunk_size_known.
  destruct a as [| | |a0| | |]; try done. cbn.
  destruct (any_unknown (chunks a0)) eqn:Hu.
  - destruct (compute_chunk_sizes a0) as [r0|] eqn:Hc; [|done].
    intros [= <-]. exists a0, r0. auto.
  - intros [= <-]. exists a0, a0. auto.
Qed.

Lemma make_chunk_size_known_fixed (a0 : da_Array T) :
  any_unknown (chunks a0) = false ->
  make_chunk_size_known (DaskArray a0) = Ok (DaskArray a0).
Proof. intros Hu. unfold make_chunk_size_known. cbn. by rewrite Hu. Qed.

Lemma make_frame_divisions_known_post (X X' : dd_DataFrame T) :
  make_frame_divisions_known X = Ok X' -> known_divisions X' = true.
Proof.
  unfold make_frame_divisions_known.
  destruct (known_divisions X) eqn:Hk; cbn.
  - by intros [= <-].
  - destruct (reset_index X) as [X1|]; [|done]. cbn.
    destruct (set_index X1 _) as [X2|]; [|done]. cbn.
    destruct (known_divisions X2) eqn:Hk2; [|done]. cbn.
    by intros [= <-].
Qed.

Lemma make_frame_divisions_known_fixed (X : dd_DataFrame T) :
  known_divisions X = true -> make_frame_divisions_known X = Ok X.
Proof. intros Hk. unfold make_frame_divisions_known. by rewrite Hk. Qed.

Lemma make_divisions_known_frame_fixed (X : dd_DataFrame T) :
  known_divisions X = true -> make_divisions_known (DaskFrame X) = Ok (DaskFrame X).
Proof.
  intros Hk. unfold make_divisions_known. cbn.
  by rewrite make_frame_divisions_known_fixed.
Qed.

Lemma make_divisions_known_series_fixed (s : dd_Series T) :
  series_known_divisions s = true -> make_divisions_known (DaskSeries s) = Ok (DaskSeries s).
Proof. intros Hk. unfold make_divisions_known. cbn. by rewrite Hk. Qed.

End Repair.

Section RepairClaims.
Import Dask.
Context {T : carriers} `{!Library T}.

Lemma make_chunk_size_known_twice `{!Laws T} (a : object T) :
  (make_chunk_size_known a ≫= make_chunk_size_known) = make_chunk_size_known a.
Proof.
  destruct (make_chunk_size_known a) as [r|e] eqn:Hr; [|done]. cbn.
  destruct (make_chunk_size_known_inv _ _ Hr) as (a0 & r0 & -> & -> & [[Hu ->]|[_ Hc]]).
  - by apply make_chunk_size_known_fixed.
  - apply make_chunk_size_known_fixed. by eapply compute_chunk_sizes_known.
Qed.

(** C5.  Running chunk-size repair, or division repair, on its own result
    gives that result again (an exception of the first run is the outcome
    of both); and an array whose chunk lengths are all known, a table or a
    column whose divisions are known, is returned as it is, without any
    call into the backend. *)
Theorem repair_idempotent `{!Laws T} :
  (forall a : object T,
     (make_chunk_size_known a ≫= make_chunk_size_known) = make_chunk_size_known a) /\
  (forall X : object T,
     (make_divisions_known X ≫= make_divisions_known) = make_divisions_known X) /\
  (forall a0 : da_Array T,
     any_unknown (chunks a0) = false ->
     make_chunk_size_known (DaskArray a0) = Ok (DaskArray a0)) /\
  (forall X0 : dd_DataFrame T,
     known_divisions X0 = true ->
     make_divisions_known (DaskFrame X0) = Ok (DaskFrame X0)) /\
  (forall s : dd_Series T,
     series_known_divisions s = true ->
     make_divisions_known (DaskSeries s) = Ok (DaskSeries s)).
Proof.
  split_and!.
  - apply make_chunk_size_known_twice.
  - intros X. destruct X as [a|X0|s0|a|X0|s|o]; try done.
    + assert (forall b : da_Array T,
        make_divisions_known (DaskArray b) = make_chunk_size_known (DaskArray b)) as Harr by done.
      rewrite Harr.
      pose proof (make_chunk_size_known_twice (DaskArray a)) as Htwice.
      destruct (make_chunk_size_known (DaskArray a)) as [r|e] eqn:Hr; [|done].
      destruct (make_chunk_size_known_inv _ _ Hr) as (a0 & r0 & _ & -> & _).
      unfold mbind, result_bind in Htwice |- *. rewrite Harr. exact Htwice.
    + unfold make_divisions_known at 2 3. cbn.
      destruct (make_frame_divisions_known X0) as [X'|e] eqn:HX; [|done]. cbn.
      apply make_divisions_known_frame_fixed.
      by eapply make_frame_divisions_known_post.
    + unfold make_divisions_known at 2 3. cbn.
      destruct (series_known_divisions s) eqn:Hk; cbn.
      * by apply make_divisions_known_series_fixed.
      * destruct (make_frame_divisions_known (to_frame s)) as [F|e] eqn:HF; [|done]. cbn.
        destruct (frame_getitem F (series_name s)) as [s'|e] eqn:Hs; [|done]. cbn.
        apply make_divisions_known_series_fixed.
        rewrite (frame_getitem_divisions _ _ _ Hs).
        by eapply make_frame_divisions_known_post.
  - apply make_chunk_size_known_fixed.
  - apply make_divisions_known_frame_fixed.
  - apply make_divisions_known_series_fixed.
Qed.

(** C6.  Whenever division repair returns on a partitioned table, what it
    returns is a partitioned table whose divisions are known, and therefore
    increasing; and when the table that [set_index] hands back still has no
    known divisions, the call raises [AssertionError] instead of returning
    it. *)
Theorem repair_establishes_divisions `{!Laws T} (X : dd_DataFrame T) :
  (forall r : object T,
     make_divisions_known (DaskFrame X) = Ok r ->
     exists X' : dd_DataFrame T,
       r = DaskFrame X' /\ known_divisions X' = true /\
       StronglySorted Z.le (divisions X')) /\
  (forall (X1 X2 : dd_DataFrame T) (name : string),
     known_divisions X = false ->
     reset_index X = Ok X1 ->
     name = match list_difference (frame_columns X1) (frame_columns X) with
            | n :: _ => n
            | [] => "index"
            end ->
     set_index X1 name = Ok X2 ->
     known_divisions X2 = false ->
     make_divisions_known (DaskFrame X) = Err AssertionError).
Proof.
  split.
  - intros r. unfold make_divisions_known. cbn.
    destruct (make_frame_divisions_known X) as [X'|e] eqn:HX; [|done]. cbn.
    intros [= <-]. exists X'.
    pose proof (make_frame_divisions_known_post _ _ HX) as Hk.
    split_and!; [done|done|]. by apply known_divisions_sorted.
  - intros X1 X2 name Hk H1 -> H2 Hk2.
    unfold make_divisions_known, make_frame_divisions_known. cbn.
    rewrite Hk. cbn. rewrite H1. cbn. rewrite H2. cbn. by rewrite Hk2.
Qed.

End RepairClaims.

Section ToyLaws.
Import Dask Toy.

Lemma toy_laws : Laws Toy.T.
Proof.
  split.
  - intros a a' [= <-]. cbn.
    apply orb_false_iff. split; [|done].
    apply bool_decide_eq_false. intros H.
    apply list_elem_of_fmap in H as (n & Hn & _). discriminate Hn.
  - intros F c s. cbn. case_decide; [|done]. by intros [= <-].
  - intros X. cbn. intros ->.
    repeat constructor. lia.
Qed.

Lemma repair_idempotent_witness :
  Laws Toy.T /\
  (make_divisions_known unknown_series ≫= make_divisions_known)
  = make_divisions_known unknown_series /\
  (make_chunk_size_known unknown_array ≫= make_chunk_size_known)
  = make_chunk_size_known unknown_array.
Proof.
  split; [exact toy_laws|].
  destruct (repair_idempotent (T:=Toy.T) (Laws0:=toy_laws)) as (Ha & HX & _).
  split; [apply HX|apply Ha].
Defined.

Lemma repair_establishes_divisions_witness :
  Laws Toy.T /\
  known_divisions empty_frame = false /\
  make_divisions_known (DaskFrame (T:=Toy.T) empty_frame) = Err AssertionError /\
  exists X' : dd_DataFrame Toy.T,
    make_divisions_known (DaskFrame (T:=Toy.T) unknown_frame) = Ok (DaskFrame X') /\
    known_divisions X' = true /\ StronglySorted Z.le (divisions X').
Proof.
  split; [exact toy_laws|]. split; [reflexivity|]. split.
  - destruct (repair_establishes_divisions (T:=Toy.T) (Laws0:=toy_laws) empty_frame)
      as [_ H].
    apply (H (ToyFrame ["index"; "a"; "b"] 0 false) (ToyFrame ["a"; "b"] 0 false) "index");
      reflexivity.
  - destruct (repair_establishes_divisions (T:=Toy.T) (Laws0:=toy_laws) unknown_frame)
      as [H _].
    destruct (H (DaskFrame (T:=Toy.T) (ToyFrame ["a"; "b"] 5 true)) eq_refl)
      as (X' & HX' & Hk & Hs).
    exists X'. split; [rewrite <- HX'; reflexivity|]. split; assumption.
Defined.

End ToyLaws.

(** ** Concatenation *)

Section Concat.
Import Dask.
Context {T : carriers} `{!Library T}.

(** When [concat_df] returns and one of the inputs is a partitioned table,
    the result is a partitioned table. *)
Lemma concat_df_partitioned (dfs : list (object T)) axis rp kw r :
  exist_dask_dataframe dfs = true ->
  concat_df dfs axis rp kw = Ok r ->
  is_dask_dataframe r = true.
Proof.
  intros He. unfold concat_df. rewrite He.
  destruct (if decide (axis = 1) then _ else _) as [dfs'|]; [|done]. cbn.
  destruct (dd_concat dfs' axis kw) as [df|]; [|done]. cbn.
  destruct rp.
  - destruct (match dfs' with [] => _ | d :: _ => _ end) as [n|]; [|done]. cbn.
    destruct (repartition df n); [|done]. cbn. by intros [= <-].
  - by intros [= <-].
Qed.

(** Along the columns, every table that reaches [dd.concat] has known
    divisions. *)
Lemma repaired_inputs_known (dfs dfs' : list (object T)) :
  comprehension make_divisions_known dfs = Ok dfs' ->
  Forall (fun d => forall X : dd_DataFrame T, d = DaskFrame X -> known_divisions X = true) dfs'.
Proof.
  revert dfs'. induction dfs as [|d dfs IH]; intros dfs'; cbn.
  - intros [= <-]. constructor.
  - destruct (make_divisions_known d) as [d'|] eqn:Hd; [|done]. cbn.
    destruct (comprehension make_divisions_known dfs) as [ds|]; [|done]. cbn.
    intros [= <-]. constructor; [|by apply IH].
    intros X ->. unfold make_divisions_known in Hd.
    destruct d as [| | |a|X0|s|]; try done; cbn in Hd.
    + destruct (any_unknown (chunks a)); [destruct (compute_chunk_sizes a)|]; done.
    + destruct (make_frame_divisions_known X0) as [X'|] eqn:HX; [|done].
      cbn in Hd. injection Hd as <-. by eapply make_frame_divisions_known_post.
    + destruct (series_known_divisions s); cbn in Hd; [done|].
      destruct (make_frame_divisions_known (to_frame s)); [|done]. cbn in Hd.
      by destruct (frame_getitem _ _).
Qed.

(** C4, on the code.  Concatenating along the columns a list that mixes an
    eager table with a partitioned one raises: [make_divisions_known]
    asserts that each input is a dask object, and [concat_df] hands it the
    eager table as it is.  With the eager table first the exception is that
    [AssertionError]; with the partitioned table first the call does not
    return either. *)
Theorem concat_df_mixed_columns_raises
    (A : dd_DataFrame T) (B : pd_DataFrame T) (rp : bool) (kw : kwargs T) :
  exist_dask_dataframe [PandasFrame B; DaskFrame A] = true /\
  concat_df [PandasFrame B; DaskFrame A] 1 rp kw = Err AssertionError /\
  is_ok (concat_df [DaskFrame A; PandasFrame B] 1 rp kw) = false /\
  is_dask_object (to_dask_type (PandasFrame B : object T)) = true.
Proof.
  split_and!; try done.
  unfold concat_df, make_divisions_known. cbn.
  destruct (make_frame_divisions_known A); reflexivity.
Qed.

End Concat.

(** ** The schema guard of transform *)

Section SchemaGuard.
Import SafeOrdinalEncoder Scenario.

(** A table whose columns are not the fitted ones, name for name and in the
    same order, is refused with a [ValueError]; the text names the columns
    received and, as expected ones, the [columns] argument of the
    constructor. *)
Lemma transform_schema_guard (self : encoder) (X : table) :
  columns X <> columns_ self ->
  transform self X
  = Err (ValueError (ColumnsDoNotMatch (ColumnsMessage (columns X) (enc_columns self)))).
Proof.
  intros Hne. unfold transform. by rewrite bool_decide_eq_false_2.
Qed.

(** C3, on the code.  An encoder built without a column list and fitted on
    the columns [a, b] refuses a table that hands them back as [b, a], and a
    table with only [a]; the [ValueError] names the columns received, but
    where the fitted columns [a, b] are expected it prints the constructor
    argument, which is None. *)
Theorem transform_mismatch_message :
  fit (Params None np_float64) ab_train = Ok ab_encoder /\
  columns_ ab_encoder = ["a"; "b"] /\
  transform ab_encoder (PdDataFrame ba_frame)
  = Err (ValueError (ColumnsDoNotMatch (ColumnsMessage ["b"; "a"] None))) /\
  transform ab_encoder (PdDataFrame a_frame)
  = Err (ValueError (ColumnsDoNotMatch (ColumnsMessage ["a"] None))).
Proof. split_and!; by vm_compute. Qed.




End SchemaGuard.

(** ** The hooks of DataInterceptEncoder *)

Section Hooks.
Import Dask Intercept.
Context {T : carriers} `{!Persist (T:=T)}.

(** C9, as amended.  [fit_transform], [transform] and [inverse_transform]
    return their data unchanged and leave the cache alone when their toggle
    is off, and return what [intercept] returns (or raise what it raises)
    when it is on.  [fit] returns the transformer itself either way: with
    its toggle off nothing else happens, with its toggle on [intercept] is
    called first, for its effect on the cache, and its value is dropped. *)
Theorem hooks_toggle (self : encoder) (X : object T) (c : gmap string (object T)) :
  (forall h : hook, h <> Fit ->
     (toggle h self = false -> call h self X c = (Ok (Data X), c)) /\
     (toggle h self = true ->
      call h self X c = ((Data <$> (intercept self X c).1), (intercept self X c).2))) /\
  (toggle Fit self = false -> call Fit self X c = (Ok (Self self), c)) /\
  (toggle Fit self = true ->
   call Fit self X c
   = (((fun _ => Self self) <$> (intercept self X c).1), (intercept self X c).2)).
Proof.
  split_and!.
  - intros h Hh. destruct h; [done| | |]; cbn;
      unfold fit_transform, transform, inverse_transform;
      (split; intros ->; [done|by destruct (intercept self X c)]).
  - cbn. unfold fit. by intros ->.
  - cbn. unfold fit. intros ->. by destruct (intercept self X c) as [[?|?] ?].
Qed.

End Hooks.

Section HooksWitness.
Import Dask Intercept Toy.

Lemma hooks_toggle_witness :
  Transform <> Fit /\
  toggle Transform cacher = true /\
  toggle Fit cacher = true /\
  toggle Fit plain = false /\
  call Transform cacher unknown_array old_cache
  = ((Data <$> (intercept cacher unknown_array old_cache).1),
     (intercept cacher unknown_array old_cache).2) /\
  call Fit cacher unknown_array old_cache
  = (((fun _ => Self cacher) <$> (intercept cacher unknown_array old_cache).1),
     (intercept cacher unknown_array old_cache).2) /\
  call Fit plain unknown_array old_cache = (Ok (Self plain), old_cache).
Proof.
  destruct (hooks_toggle cacher unknown_array old_cache) as (Hh & _ & Hfit).
  destruct (hooks_toggle plain unknown_array old_cache) as (_ & Hoff & _).
  split; [discriminate|]. split; [reflexivity|]. split; [reflexivity|].
  split; [reflexivity|]. split; [|split].
  - apply (Hh Transform); [discriminate|reflexivity].
  - apply Hfit. reflexivity.
  - apply Hoff. reflexivity.
Defined.

(** The claim as first stated, with [fit] among the hooks that pass the data
    through: [fit] on a transformer with every toggle off returns the
    transformer, not the data. *)
Lemma hooks_identity_counterexample :
  ~ (forall (h : hook) (self : encoder (T:=Toy.T)) (X : object Toy.T)
            (c : gmap string (object Toy.T)),
       (toggle h self = false -> call h self X c = (Ok (Data X), c)) /\
       (toggle h self = true ->
        call h self X c = ((Data <$> (intercept self X c).1), (intercept self X c).2))).
Proof.
  intros H.
  destruct (H Fit plain eager_frame ∅) as [Hoff _].
  specialize (Hoff eq_refl). cbn in Hoff. discriminate Hoff.
Qed.

End HooksWitness.

(** ** The estimator after permutation_importance *)

Section Wrapping.
Import Dask Importance.

Lemma wrap_method_lookup (name : string) (est : gmap string callable) (orig : callable) :
  est !! name = Some orig ->
  wrap_method name est !! name = Some (CallAndCompute orig) /\
  ("_orig_" +:+ name <> name ->
   wrap_method name est !! ("_orig_" +:+ name) = Some orig).
Proof.
  intros H. unfold wrap_method. rewrite H. split.
  - apply lookup_insert_eq.
  - intros Hne. rewrite lookup_insert_ne by done. apply lookup_insert_eq.
Qed.

Lemma wrap_method_other (name k : string) (est : gmap string callable) :
  k <> name -> k <> "_orig_" +:+ name ->
  wrap_method name est !! k = est !! k.
Proof.
  intros H1 H2. unfold wrap_method. destruct (est !! name); [|done].
  by rewrite !lookup_insert_ne.
Qed.

Lemma wrap_estimator_spec (est : gmap string callable) :
  (forall orig, est !! "predict" = Some orig ->
     wrap_estimator est !! "predict" = Some (CallAndCompute orig) /\
     wrap_estimator est !! "_orig_predict" = Some orig) /\
  (forall orig, est !! "predict_proba" = Some orig ->
     wrap_estimator est !! "predict_proba" = Some (CallAndCompute orig) /\
     wrap_estimator est !! "_orig_predict_proba" = Some orig) /\
  (est !! "predict" = None -> wrap_estimator est !! "predict" = None) /\
  (est !! "predict_proba" = None -> wrap_estimator est !! "predict_proba" = None) /\
  (forall k, k ∉ ["predict"; "_orig_predict"; "predict_proba"; "_orig_predict_proba"] ->
     wrap_estimator est !! k = est !! k).
Proof.
  unfold wrap_estimator. split_and!.
  - intros orig H.
    assert (wrap_method "predict_proba" est !! "predict" = Some orig) as H'
      by (rewrite wrap_method_other; done).
    destruct (wrap_method_lookup "predict" _ orig H') as [H1 H2].
    split; [done|]. by apply H2.
  - intros orig H.
    destruct (wrap_method_lookup "predict_proba" _ orig H) as [H1 H2].
    split; (rewrite wrap_method_other; [|by cbn..]); [done|]. by apply H2.
  - intros H. unfold wrap_method at 1.
    rewrite wrap_method_other by done. by rewrite H, wrap_method_other.
  - intros H. rewrite wrap_method_other by done. unfold wrap_method. by rewrite H.
  - intros k Hk.
    rewrite !not_elem_of_cons in Hk. destruct Hk as (? & ? & ? & ? & _).
    by rewrite !wrap_method_other.
Qed.

Context {T : carriers} `{!Library T} `{!Scoring (T:=T)}.

(** C10.  When the feature table is partitioned and the call gets past the
    seed check and the materialisation of [y], the estimator object is left
    wrapped, whether the call then returns or raises: [predict], and
    [predict_proba] when the estimator has one, hold
    [partial(call_and_compute, original)], the originals are kept under
    [_orig_predict] and [_orig_predict_proba], an absent method stays
    absent, and no other attribute changes.  Nothing puts the originals
    back.  With an eager feature table the estimator is not touched. *)
Theorem permutation_importance_wraps
    (est : gmap string callable) (X0 : dd_DataFrame T) (y y' : object T)
    (sco : scoring) (n_repeats : nat) (random_state : option Z) (g : rng T) :
  check_random_state random_state = Ok g ->
  (if is_dask_object y then compute y else Ok y) = Ok y' ->
  let est' := (permutation_importance est (DaskFrame X0) y sco n_repeats random_state).2 in
  est' = wrap_estimator est /\
  (forall orig, est !! "predict" = Some orig ->
     est' !! "predict" = Some (CallAndCompute orig) /\
     est' !! "_orig_predict" = Some orig) /\
  (forall orig, est !! "predict_proba" = Some orig ->
     est' !! "predict_proba" = Some (CallAndCompute orig) /\
     est' !! "_orig_predict_proba" = Some orig) /\
  (est !! "predict" = None -> est' !! "predict" = None) /\
  (est !! "predict_proba" = None -> est' !! "predict_proba" = None) /\
  (forall k, k ∉ ["predict"; "_orig_predict"; "predict_proba"; "_orig_predict_proba"] ->
     est' !! k = est !! k) /\
  (forall X : object T, is_dask_dataframe X = false ->
     (permutation_importance est X y sco n_repeats random_state).2 = est).
Proof.
  intros Hrs Hy. cbn zeta.
  assert ((permutation_importance est (DaskFrame X0) y sco n_repeats random_state).2
          = wrap_estimator est) as ->.
  { unfold permutation_importance. by rewrite Hrs, Hy. }
  destruct (wrap_estimator_spec est) as (H1 & H2 & H3 & H4 & H5).
  split_and!; try done.
  intros X HX. by destruct X.
Qed.

End Wrapping.

Section WrappingWitness.
Import Dask Importance Toy.

Lemma permutation_importance_wraps_witness :
  check_random_state (Some 3) = Ok 3%nat /\
  (if is_dask_object eager_frame then compute eager_frame else Ok eager_frame)
  = Ok eager_frame /\
  let est' := (permutation_importance classifier (DaskFrame (T:=Toy.T) unknown_frame)
                 eager_frame default_scoring 2 (Some 3)).2 in
  est' !! "predict" = Some (CallAndCompute (Method "predict")) /\
  est' !! "_orig_predict" = Some (Method "predict") /\
  est' !! "predict_proba" = Some (CallAndCompute (Method "predict_proba")) /\
  est' !! "_orig_predict_proba" = Some (Method "predict_proba") /\
  est' !! "fit" = Some (Method "fit").
Proof.
  split; [reflexivity|]. split; [reflexivity|].
  destruct (permutation_importance_wraps (T:=Toy.T) classifier unknown_frame
              eager_frame eager_frame default_scoring 2 (Some 3) 3%nat eq_refl eq_refl)
    as (_ & Hp & Hpp & _ & _ & Hother & _).
  cbn zeta. split_and!.
  - apply (Hp (Method "predict")). reflexivity.
  - apply (Hp (Method "predict")). reflexivity.
  - apply (Hpp (Method "predict_proba")). reflexivity.
  - apply (Hpp (Method "predict_proba")). reflexivity.
  - rewrite Hother; [reflexivity|].
    rewrite !not_elem_of_cons. split_and!; try discriminate. apply not_elem_of_nil.
Defined.

End WrappingWitness.

(** ** More on the encoder: what transform returns *)

Section TransformShape.
Import SafeOrdinalEncoder Scenario.

Lemma np_cast_zero (t : np_type) : np_cast t 0 = 0%Z.
Proof. by destruct t. Qed.

(** A code is the number that the numeric type makes of a position. *)
Lemma code_of_position (t : np_type) (cat : list scalar) (v : scalar) :
  exists z : Z, (0 <= z <= Z.of_nat (length cat))%Z /\
                code_of (make_mapping t cat) v = np_cast t z.
Proof.
  unfold code_of. rewrite make_mapping_lookup.
  destruct (last_index v cat) as [i|] eqn:E; cbn.
  - apply last_index_lookup, lookup_lt_Some in E.
    exists (Z.of_nat i + 1)%Z. split; [lia|done].
  - exists 0%Z. split; [lia|]. by rewrite np_cast_zero.
Qed.

(** On a table with the fitted columns [transform] returns the frame that
    [encode_frame] describes, under the dictionaries of [make_encoder]. *)
Lemma transform_pandas_spec (p : params) (X : ddf) (self : encoder) (Y : pdf) :
  fit p X = Ok self ->
  pdf_columns Y = columns_ self ->
  NoDup (columns_ self) ->
  NoDup (categorical_columns_ self) ->
  exists m0,
    make_mappings (categorical_columns_ self) (categories_ self) (enc_dtype self) = Ok m0 /\
    (forall c, c ∈ categorical_columns_ self ->
       c ∈ columns_ self /\
       exists cat dt, categories_ self !! c = Some cat /\
                      m0 !! c = Some (make_mapping (enc_dtype self) cat) /\
                      dtypes_ self !! c = Some dt) /\
    transform self (PdDataFrame Y)
    = Ok (PdDataFrame (encode_frame (categorical_columns_ self) (np_dtype (enc_dtype self))
                                    m0 Y)).
Proof.
  intros Hfit HY HndY Hnd.
  destruct (fit_inv _ _ _ Hfit) as (_ & _ & Hcols & _ & Hcats).
  destruct (make_mappings_total (categorical_columns_ self) (categories_ self)
              (enc_dtype self)) as [m0 Hm0].
  { intros c Hc. destruct (Hcats c Hc) as (? & ? & s & _ & _ & _ & _ & Hs). by exists s. }
  assert (forall c, c ∈ categorical_columns_ self ->
            c ∈ columns_ self /\
            exists cat dt, categories_ self !! c = Some cat /\
                           m0 !! c = Some (make_mapping (enc_dtype self) cat) /\
                           dtypes_ self !! c = Some dt) as Hall.
  { intros c Hc.
    destruct (Hcats c Hc) as (k & _ & _ & Hk & Hdt & _).
    destruct (make_mappings_lookup _ _ _ _ c Hm0 Hc) as (cat & Hcat & Hml).
    split.
    - rewrite Hcols. by apply (getitem_ok_elem _ _ k).
    - by exists cat, (col_dtype k). }
  exists m0. split_and!; [done|done|].
  destruct (safe_ordinal_encoder_spec (enc_dtype self) m0 (categorical_columns_ self) Y m0)
    as [m' Henc]; try done.
  - by rewrite HY.
  - intros c Hc. destruct (Hall c Hc) as (? & cat & ? & _ & Hm & _).
    split; [by rewrite HY|by eexists].
  - intros c d0 Hd0. by exists d0.
  - unfold transform. cbn [columns]. rewrite bool_decide_eq_true_2 by done. cbn.
    rewrite Hm0. cbn. by rewrite Henc.
Qed.

(** X1.  On an eager table with the fitted columns, [transform] returns a
    table with the same columns in the same order and the same number of
    rows; a column that is not categorical comes back as it went in, and a
    categorical column comes back under the dtype of the encoder's numeric
    type with, in every cell, the number that this type makes of a position
    between 0 and the size of that column's vocabulary; when the type holds
    those positions as they are, every cell is a number between 0 and that
    size. *)
Theorem transform_shape_and_bounds (p : params) (X : ddf) (self : encoder) (Y : pdf) :
  fit p X = Ok self ->
  pdf_columns Y = columns_ self ->
  NoDup (columns_ self) ->
  NoDup (categorical_columns_ self) ->
  exists Y' : pdf,
    transform self (PdDataFrame Y) = Ok (PdDataFrame Y') /\
    pdf_columns Y' = pdf_columns Y /\
    Forall2 (fun k k' =>
               length (col_values k') = length (col_values k) /\
               if decide (col_name k ∈ categorical_columns_ self) then
                 col_dtype k' = np_dtype (enc_dtype self) /\
                 exists cat, categories_ self !! col_name k = Some cat /\
                   Forall (fun x => exists z, (0 <= z <= Z.of_nat (length cat))%Z /\
                                              x = SNum (np_cast (enc_dtype self) z))
                          (col_values k') /\
                   (holds_codes (enc_dtype self) (length cat) ->
                    Forall (fun x => exists z, x = SNum z /\
                                               (0 <= z <= Z.of_nat (length cat))%Z)
                           (col_values k'))
               else k' = k) Y Y'.
Proof.
  intros Hfit HY HndY Hnd.
  destruct (transform_pandas_spec _ _ _ Y Hfit HY HndY Hnd) as (m0 & _ & Hall & Ht).
  eexists. split; [exact Ht|]. split.
  - unfold encode_frame. apply pdf_columns_fmap. intros k. by case_decide.
  - unfold encode_frame. apply Forall2_fmap_r, Forall_Forall2_diag, Forall_forall.
    intros k _. unfold compose. cbv beta.
    destruct (decide (col_name k ∈ categorical_columns_ self)) as [Hk|Hk]; [|done].
    destruct (Hall _ Hk) as (_ & cat & dt & Hcat & Hm & _).
    cbn. rewrite length_fmap. split; [done|]. split; [done|].
    exists cat. split; [done|]. rewrite Hm. cbn. split.
    + apply Forall_fmap, Forall_forall. intros v _. cbn.
      destruct (code_of_position (enc_dtype self) cat v) as (z & Hz & ->).
      by exists z.
    + intros Hex. apply Forall_fmap, Forall_forall. intros v _. cbn.
      destruct (code_of_position (enc_dtype self) cat v) as (z & Hz & ->).
      exists z. by rewrite Hex.
Qed.

Lemma transform_shape_and_bounds_witness :
  fit (Params None np_float64) ab_train = Ok ab_encoder /\
  pdf_columns ab_frame = columns_ ab_encoder /\
  NoDup (columns_ ab_encoder) /\
  NoDup (categorical_columns_ ab_encoder) /\
  exists Y' : pdf,
    transform ab_encoder (PdDataFrame ab_frame) = Ok (PdDataFrame Y') /\
    pdf_columns Y' = pdf_columns ab_frame.
Proof.
  assert (fit (Params None np_float64) ab_train = Ok ab_encoder) as Hfit
    by (vm_compute; reflexivity).
  assert (NoDup (columns_ ab_encoder)) as H1
    by (apply (bool_decide_unpack _); vm_compute; exact I).
  assert (NoDup (categorical_columns_ ab_encoder)) as H2
    by (apply (bool_decide_unpack _); vm_compute; exact I).
  split; [exact Hfit|]. split; [reflexivity|]. split; [exact H1|]. split; [exact H2|].
  destruct (transform_shape_and_bounds _ _ _ ab_frame Hfit eq_refl H1 H2)
    as (Y' & Ht & Hc & _).
  exists Y'. split; [exact Ht|exact Hc].
Defined.

(** X2.  A fitted encoder accepts an eager table exactly when its columns
    are the fitted ones, name for name and in order: then [transform]
    returns, and otherwise it raises the [ValueError] that carries the
    columns received and the [columns] argument the encoder was built with. *)
Theorem transform_accepts_fitted_columns (p : params) (X : ddf) (self : encoder) (Y : pdf) :
  fit p X = Ok self ->
  NoDup (columns_ self) ->
  NoDup (categorical_columns_ self) ->
  (pdf_columns Y = columns_ self -> is_ok (transform self (PdDataFrame Y)) = true) /\
  (pdf_columns Y <> columns_ self ->
   transform self (PdDataFrame Y)
   = Err (ValueError (ColumnsDoNotMatch (ColumnsMessage (pdf_columns Y) (p_columns p))))).
Proof.
  intros Hfit HndY Hnd. split.
  - intros HY.
    destruct (transform_pandas_spec _ _ _ Y Hfit HY HndY Hnd) as (m0 & _ & _ & Ht).
    by rewrite Ht.
  - intros HY. destruct (fit_inv _ _ _ Hfit) as (Hp & _).
    rewrite <- Hp. by apply (transform_schema_guard self (PdDataFrame Y)).
Qed.

Lemma transform_accepts_fitted_columns_witness :
  fit (Params None np_float64) ab_train = Ok ab_encoder /\
  NoDup (columns_ ab_encoder) /\
  NoDup (categorical_columns_ ab_encoder) /\
  is_ok (transform ab_encoder (PdDataFrame ab_frame)) = true /\
  transform ab_encoder (PdDataFrame ba_frame)
  = Err (ValueError (ColumnsDoNotMatch (ColumnsMessage (pdf_columns ba_frame) None))).
Proof.
  assert (fit (Params None np_float64) ab_train = Ok ab_encoder) as Hfit
    by (vm_compute; reflexivity).
  assert (NoDup (columns_ ab_encoder)) as H1
    by (apply (bool_decide_unpack _); vm_compute; exact I).
  assert (NoDup (categorical_columns_ ab_encoder)) as H2
    by (apply (bool_decide_unpack _); vm_compute; exact I).
  split; [exact Hfit|]. split; [exact H1|]. split; [exact H2|].
  split.
  - apply (transform_accepts_fitted_columns _ _ _ ab_frame Hfit H1 H2). reflexivity.
  - apply (transform_accepts_fitted_columns _ _ _ ba_frame Hfit H1 H2). discriminate.
Defined.

End TransformShape.

(** ** More on the encoder: partitioned tables *)

Section TransformPartitions.
Import SafeOrdinalEncoder Scenario.

Lemma agree_refl (m : gmap string (gmap scalar Z)) : agree m m.
Proof. intros c d Hd. by exists d. Qed.

(** Whatever the encoder stores in the dictionaries while it runs, they keep
    giving every cell the code they gave at first. *)
Lemma vectorize_encode_agree (m0 m m' : gmap string (gmap scalar Z)) values c vs :
  agree m0 m ->
  vectorize_encode m values c = Ok (vs, m') ->
  agree m0 m'.
Proof.
  intros Hag. destruct (m !! c) as [d1|] eqn:Hd1.
  - destruct (vectorize_encode_spec values m c d1 Hd1) as (d' & Hv & Hd').
    rewrite Hv. intros [= _ <-]. by eapply agree_insert.
  - destruct values as [|x values]; cbn.
    + by intros [= _ <-].
    + unfold encode_column, dict_get. by rewrite Hd1.
Qed.

Lemma safe_ordinal_encoder_agree (dt : np_type) (m0 : gmap string (gmap scalar Z)) cols :
  forall (Y Y' : pdf) (m m' : gmap string (gmap scalar Z)),
    agree m0 m ->
    safe_ordinal_encoder cols dt m Y = Ok (Y', m') ->
    agree m0 m'.
Proof.
  unfold safe_ordinal_encoder.
  induction cols as [|c cols IH]; intros Y Y' m m' Hag; cbn [for_each].
  - by intros [= _ <-].
  - destruct (getitem Y c) as [k|]; [|done]. cbn.
    destruct (vectorize_encode m (col_values k) c) as [[vs m1]|] eqn:Hv; [|done]. cbn.
    apply IH. by eapply vectorize_encode_agree.
Qed.

Lemma map_partitions_encoder_spec (dt : np_type) (m0 : gmap string (gmap scalar Z)) cols ps :
  forall m : gmap string (gmap scalar Z),
    NoDup cols ->
    agree m0 m ->
    (forall c, c ∈ cols -> is_Some (m0 !! c)) ->
    Forall (fun p : pdf => NoDup (pdf_columns p) /\ forall c, c ∈ cols -> c ∈ pdf_columns p) ps ->
    exists m',
      map_partitions_st (safe_ordinal_encoder cols dt) m ps
      = Ok (encode_frame cols (np_dtype dt) m0 <$> ps, m').
Proof.
  induction ps as [|q ps IH]; intros m Hnd Hag Hm0 Hps.
  - by exists m.
  - apply Forall_cons in Hps as [[HndQ HQ] Hps].
    destruct (safe_ordinal_encoder_spec dt m0 cols q m) as [m1 H1]; try done.
    { intros c Hc. split; [by apply HQ|by apply Hm0]. }
    pose proof (safe_ordinal_encoder_agree dt m0 cols _ _ _ _ Hag H1) as Hag1.
    destruct (IH m1 Hnd Hag1 Hm0 Hps) as [m' Hm'].
    exists m'. cbn. rewrite H1. cbn. by rewrite Hm'.
Qed.

(** X3.  [transform] on a partitioned table encodes every partition as
    [transform] would encode it on its own: the keys that the
    [defaultdict] picks up in one partition change no code in the next.  The
    result has the same number of partitions, each the eager transform of
    the partition it came from. *)
Theorem transform_partitionwise (p : params) (X : ddf) (self : encoder) (D : ddf) :
  fit p X = Ok self ->
  NoDup (columns_ self) ->
  NoDup (categorical_columns_ self) ->
  ddf_columns D = columns_ self ->
  Forall (fun q : pdf => pdf_columns q = columns_ self) (dd_partitions D) ->
  exists (meta : pdf) (parts : list pdf),
    transform self (DdDataFrame D) = Ok (DdDataFrame (Ddf meta parts)) /\
    transform self (PdDataFrame (dd_meta D)) = Ok (PdDataFrame meta) /\
    Forall2 (fun q q' => transform self (PdDataFrame q) = Ok (PdDataFrame q'))
            (dd_partitions D) parts.
Proof.
  intros Hfit HndY Hnd HD Hparts.
  destruct (transform_pandas_spec _ _ _ (dd_meta D) Hfit HD HndY Hnd)
    as (m0 & Hm0 & Hall & Hmeta).
  pose (cols := categorical_columns_ self).
  pose (dt := enc_dtype self).
  exists (encode_frame cols (np_dtype dt) m0 (dd_meta D)),
         (encode_frame cols (np_dtype dt) m0 <$> dd_partitions D).
  split_and!; [|done|].
  - destruct (safe_ordinal_encoder_spec dt m0 cols (dd_meta D) m0) as [m1 H1]; try done.
    { unfold ddf_columns in HD. by rewrite HD. }
    { intros c Hc. destruct (Hall c Hc) as (? & cat & ? & _ & Hm & _).
      unfold ddf_columns in HD. rewrite HD. split; [done|by eexists]. }
    { apply agree_refl. }
    pose proof (safe_ordinal_encoder_agree dt m0 cols _ _ _ _ (agree_refl m0) H1) as Hag1.
    destruct (map_partitions_encoder_spec dt m0 cols (dd_partitions D) m1) as [m' Hm'];
      try done.
    { intros c Hc. destruct (Hall c Hc) as (? & cat & ? & _ & Hm & _). by eexists. }
    { eapply Forall_impl; [exact Hparts|]. intros q Hq. cbn. rewrite Hq.
      split; [done|]. intros c Hc. by destruct (Hall c Hc). }
    unfold transform. cbn [columns]. rewrite bool_decide_eq_true_2 by done. cbn.
    rewrite Hm0. cbn. unfold cols, dt in H1, Hm'. rewrite H1. cbn. by rewrite Hm'.
  - apply Forall2_fmap_r, Forall_Forall2_diag.
    eapply Forall_impl; [exact Hparts|]. intros q Hq. cbn.
    destruct (transform_pandas_spec _ _ _ q Hfit Hq HndY Hnd) as (m0' & Hm0' & _ & Hq').
    assert (m0' = m0) as -> by congruence. exact Hq'.
Qed.

Lemma transform_partitionwise_witness :
  fit (Params None np_float64) train = Ok scenario_encoder /\
  NoDup (columns_ scenario_encoder) /\
  NoDup (categorical_columns_ scenario_encoder) /\
  ddf_columns train = columns_ scenario_encoder /\
  Forall (fun q : pdf => pdf_columns q = columns_ scenario_encoder) (dd_partitions train) /\
  exists (meta : pdf) (parts : list pdf),
    transform scenario_encoder (DdDataFrame train) = Ok (DdDataFrame (Ddf meta parts)) /\
    Forall2 (fun q q' => transform scenario_encoder (PdDataFrame q) = Ok (PdDataFrame q'))
            (dd_partitions train) parts.
Proof.
  assert (fit (Params None np_float64) train = Ok scenario_encoder) as Hfit
    by (vm_compute; reflexivity).
  assert (NoDup (columns_ scenario_encoder)) as H1 by apply NoDup_singleton.
  assert (NoDup (categorical_columns_ scenario_encoder)) as H2 by apply NoDup_singleton.
  assert (Forall (fun q : pdf => pdf_columns q = columns_ scenario_encoder)
                 (dd_partitions train)) as H3 by (repeat constructor).
  split; [exact Hfit|]. split; [exact H1|]. split; [exact H2|].
  split; [reflexivity|]. split; [exact H3|].
  destruct (transform_partitionwise _ _ _ train Hfit H1 H2 eq_refl H3)
    as (meta & parts & Ht & _ & Hp).
  exists meta, parts. split; [exact Ht|exact Hp].
Defined.

End TransformPartitions.

(** ** More on the encoder: what inverse_transform accepts *)

Section InverseTransform.
Import SafeOrdinalEncoder Scenario.


Lemma comprehension_fails {A B} (f : A -> result B) xs x :
  x ∈ xs -> is_ok (f x) = false -> is_ok (comprehension f xs) = false.
Proof.
  intros Hx Hf. induction xs as [|y xs IH]; [by apply elem_of_nil in Hx|].
  cbn. destruct (f y) as [b|] eqn:Hy; [|done]. cbn.
  apply elem_of_cons in Hx as [->|Hx]; [by rewrite Hy in Hf|].
  specialize (IH Hx). by destruct (comprehension f xs).
Qed.


Lemma decode_column_missing categories dtypes col x :
  x = SNaN \/ x = SNone -> is_ok (decode_column categories dtypes x col) = false.
Proof.
  intros Hx. unfold decode_column, dict_get.
  destruct (categories !! col); [|done]. by destruct Hx as [-> | ->].
Qed.

Lemma getitem_setitem_ne (Y : pdf) c c' dt r :
  c <> c' -> getitem (setitem Y c' dt r) c = getitem Y c.
Proof.
  intros Hne. induction Y as [|k Y IH]; cbn.
  - by rewrite decide_False.
  - destruct (decide (col_name k = c')) as [Hk|Hk]; cbn.
    + rewrite !decide_False by congruence. done.
    + case_decide; [done|]. apply IH.
Qed.

Lemma safe_ordinal_decoder_missing categories dtypes cols c k x :
  c ∈ cols ->
  x ∈ col_values k ->
  x = SNaN \/ x = SNone ->
  forall Y : pdf, getitem Y c = Ok k ->
    is_ok (safe_ordinal_decoder cols categories dtypes Y) = false.
Proof.
  intros Hc Hx Hbad. unfold safe_ordinal_decoder.
  induction cols as [|c0 cols IH]; intros Y Hk; [by apply elem_of_nil in Hc|].
  cbn [for_each].
  destruct (dict_get dtypes c0) as [otype|]; [|done]. cbn.
  destruct (as_numpy_dtype otype) as [[]|]; [|done]. cbn.
  destruct (decide (c0 = c)) as [->|Hne].
  - rewrite Hk. cbn. unfold vectorize_decode.
    pose proof (comprehension_fails
      (fun x => decode_column categories dtypes x c) _ x Hx
      (decode_column_missing categories dtypes c x Hbad)) as Hf.
    by destruct (comprehension _ (col_values k)).
  - destruct (getitem Y c0) as [k0|]; [|done]. cbn.
    destruct (vectorize_decode _ _ _ (col_values k0) c0) as [r|]; [|done]. cbn.
    apply IH.
    + apply elem_of_cons in Hc as [->|Hc]; [done|done].
    + by rewrite getitem_setitem_ne.
Qed.



(** X5.  A code that is missing is not taken for an unknown one: when a
    categorical column of the table holds a not-a-number or a None cell,
    [inverse_transform] raises (from [int(x)]) instead of putting the
    marker there, whatever else the table holds. *)
Theorem inverse_transform_rejects_missing_code
    (self : encoder) (Y : pdf) (c : string) (k : column) (x : scalar) :
  c ∈ categorical_columns_ self ->
  getitem Y c = Ok k ->
  x ∈ col_values k ->
  x = SNaN \/ x = SNone ->
  is_ok (inverse_transform self (Table (PdDataFrame Y))) = false.
Proof.
  intros Hc Hk Hx Hbad. unfold inverse_transform. cbn.
  pose proof (safe_ordinal_decoder_missing (categories_ self) (dtypes_ self)
                _ c k x Hc Hx Hbad Y Hk) as Hf.
  by destruct (safe_ordinal_decoder _ _ _ Y).
Qed.

Lemma inverse_transform_rejects_missing_code_witness :
  "color" ∈ categorical_columns_ scenario_encoder /\
  SNaN ∈ [SNum 1; SNaN] /\
  is_ok (inverse_transform scenario_encoder
           (Table (PdDataFrame [Column "color" Float64 [SNum 1; SNaN]]))) = false.
Proof.
  assert ("color" ∈ categorical_columns_ scenario_encoder) as Hc
    by (apply elem_of_cons; left; reflexivity).
  assert (SNaN ∈ [SNum 1; SNaN]) as Hx
    by (apply elem_of_cons; right; apply elem_of_cons; left; reflexivity).
  split; [exact Hc|]. split; [exact Hx|].
  apply (inverse_transform_rejects_missing_code scenario_encoder
           [Column "color" Float64 [SNum 1; SNaN]] "color"
           (Column "color" Float64 [SNum 1; SNaN]) SNaN Hc eq_refl Hx).
  by left.
Defined.

End InverseTransform.

(** ** More on the encoder: what fit records and refuses *)

Section FitState.
Import SafeOrdinalEncoder Scenario.

Lemma getitem_err (X : pdf) c e :
  getitem X c = Err e -> e = KeyError c /\ c ∉ pdf_columns X.
Proof.
  induction X as [|k X IH]; cbn.
  - intros [= <-]. split; [done|apply not_elem_of_nil].
  - case_decide as Hk; [done|]. intros H. destruct (IH H) as [-> Hc].
    split; [done|]. apply not_elem_of_cons. split; [congruence|done].
Qed.

Lemma for_each_insert_dom {V} (f : string -> result V)
    (body : gmap string V -> string -> result (gmap string V)) cs d :
  (forall d c, body d c = (v ← f c; Ok (<[c := v]> d))) ->
  for_each body ∅ cs = Ok d ->
  forall c, is_Some (d !! c) <-> c ∈ cs.
Proof.
  intros Hbody Hd c.
  destruct (for_each_insert f body cs Hbody _ _ Hd) as [Hin Hout]. split.
  - intros Hs. destruct (decide (c ∈ cs)) as [|Hc]; [done|].
    rewrite (Hout _ Hc), lookup_empty in Hs. by destruct Hs.
  - intros Hc. destruct (Hin _ Hc) as (v & _ & Hv). by exists v.
Qed.

Lemma dtypes_loop_total (meta : pdf) :
  exists d, for_each (fun d c => k ← getitem meta c; Ok (<[c := col_dtype k]> d))
                     (∅ : gmap string dtype) (pdf_columns meta) = Ok d.
Proof.
  apply (for_each_insert_total (fun c => col_dtype <$> getitem meta c)).
  - intros d c. by destruct (getitem meta c).
  - intros c Hc. destruct (getitem_elem_ok _ _ Hc) as [k ->]. done.
Qed.

(** X6.  What [fit] leaves on the encoder.  The fitted columns are the
    table's; without an explicit list the categorical columns are the
    table's object and category columns in table order; every categorical
    column is a fitted column and the non-categorical ones are the fitted
    columns that remain, in order; a dtype is recorded for exactly the
    fitted columns, the one the table declares, and a vocabulary for
    exactly the categorical ones. *)
Theorem fit_records (p : params) (X : ddf) (self : encoder) :
  fit p X = Ok self ->
  columns_ self = ddf_columns X /\
  (p_columns p = None ->
   categorical_columns_ self
   = col_name <$> filter (fun k => is_category (col_dtype k) \/ col_dtype k = Object)
                         (dd_meta X)) /\
  (forall cs, p_columns p = Some cs -> categorical_columns_ self = cs) /\
  (forall c, c ∈ categorical_columns_ self -> c ∈ columns_ self) /\
  non_categorical_columns_ self
  = filter (fun c => c ∉ categorical_columns_ self) (columns_ self) /\
  (forall c, c ∈ columns_ self <->
             c ∈ categorical_columns_ self \/ c ∈ non_categorical_columns_ self) /\
  (forall c, is_Some (dtypes_ self !! c) <-> c ∈ columns_ self) /\
  (forall c k, getitem (dd_meta X) c = Ok k -> dtypes_ self !! c = Some (col_dtype k)) /\
  (forall c, is_Some (categories_ self !! c) <-> c ∈ categorical_columns_ self).
Proof.
  intros Hfit.
  destruct (fit_inv _ _ _ Hfit) as (_ & _ & Hcols & Hsel & Hcats).
  assert (forall c, c ∈ categorical_columns_ self -> c ∈ columns_ self) as Hsub.
  { intros c Hc. destruct (Hcats c Hc) as (k & _ & _ & Hk & _).
    rewrite Hcols. by apply (getitem_ok_elem _ _ k). }
  revert Hfit. unfold fit.
  destruct (for_each _ ∅ (ddf_columns X)) as [dts|] eqn:Hdt; [|done]. cbn.
  set (cols := match p_columns p with None => _ | Some cs => cs end).
  destruct (for_each _ tt cols) as [[]|] eqn:Hchk; [|done]. cbn.
  unfold index_drop.
  destruct (for_each (fun (_ : unit) l =>
              if decide (l ∈ ddf_columns X) then Ok tt else Err (KeyError l)) tt cols)
    as [[]|] eqn:Hdrop; [|done]. cbn.
  destruct (for_each _ ∅ cols) as [cs|] eqn:Hcat; [|done]. cbn.
  intros [= <-]. cbn in *. split_and!; try done.
  - intros Hp. unfold cols. by rewrite Hp.
  - intros cs' Hp. unfold cols. by rewrite Hp.
  - intros c. rewrite list_elem_of_filter. split.
    + intros Hc. destruct (decide (c ∈ cols)); [by left|by right].
    + intros [Hc|[_ Hc]]; [by apply Hsub|done].
  - intros c.
    eapply (for_each_insert_dom (fun c => col_dtype <$> getitem (dd_meta X) c));
      [|exact Hdt].
    intros d c'. cbv beta. by destruct (getitem (dd_meta X) c').
  - intros c k Hk.
    apply (for_each_insert (fun c => col_dtype <$> getitem (dd_meta X) c)) in Hdt
      as [Hdin _]; [|intros d c'; by destruct (getitem (dd_meta X) c')].
    destruct (Hdin c) as (dt & Hdt1 & Hdt2); [by apply (getitem_ok_elem _ _ k)|].
    rewrite Hk in Hdt1. by injection Hdt1 as <-.
  - intros c.
    eapply (for_each_insert_dom (fun c => cats ← cat_categories X c; sort_values cats));
      [|exact Hcat].
    intros d c'. cbv beta. destruct (cat_categories X c') as [cats|]; [|done].
    cbn. by destruct (sort_values cats).
Qed.

Lemma fit_records_witness :
  fit (Params None np_float64) ab_train = Ok ab_encoder /\
  categorical_columns_ ab_encoder = ["a"] /\
  non_categorical_columns_ ab_encoder
  = filter (fun c => c ∉ categorical_columns_ ab_encoder) (columns_ ab_encoder).
Proof.
  assert (fit (Params None np_float64) ab_train = Ok ab_encoder) as Hfit
    by (vm_compute; reflexivity).
  split; [exact Hfit|].
  destruct (fit_records _ _ _ Hfit) as (_ & Hsel & _ & _ & Hnon & _).
  split; [exact (Hsel eq_refl)|exact Hnon].
Defined.

(** X7.  [fit] with an explicit column list that names a column the table
    does not have raises [KeyError] for such a column, and fits nothing. *)
Theorem fit_unknown_column (p : params) (X : ddf) (cs : list string) (c : string) :
  p_columns p = Some cs ->
  c ∈ cs ->
  c ∉ ddf_columns X ->
  exists c', c' ∈ cs /\ (c' ∉ ddf_columns X) /\ fit p X = Err (KeyError c').
Proof.
  intros Hp Hc Hnot. unfold fit.
  destruct (dtypes_loop_total (dd_meta X)) as [d Hd].
  unfold ddf_columns in *. rewrite Hd. cbn. rewrite Hp.
  assert (exists c', c' ∈ cs /\ (c' ∉ pdf_columns (dd_meta X)) /\
            for_each (fun (_ : unit) c0 => _ ← getitem (dd_meta X) c0; Ok tt) tt cs
            = Err (KeyError c')) as (c' & H1 & H2 & H3).
  { clear Hp Hd. induction cs as [|c0 cs IH]; [by apply elem_of_nil in Hc|].
    cbn. destruct (getitem (dd_meta X) c0) as [k|e] eqn:Hk.
    - cbn. apply elem_of_cons in Hc as [->|Hc].
      + exfalso. apply Hnot. by apply (getitem_ok_elem _ _ k).
      + destruct (IH Hc) as (c' & ? & ? & ?). exists c'.
        split_and!; [apply elem_of_cons; by right|done|done].
    - destruct (getitem_err _ _ _ Hk) as [-> Hc0]. exists c0.
      split_and!; [apply elem_of_cons; by left|done|done]. }
  exists c'. split_and!; [done|done|]. by rewrite H3.
Qed.

Lemma fit_unknown_column_witness :
  "shape" ∈ ["color"; "shape"] /\
  ("shape" ∉ ddf_columns train) /\
  exists c', fit (Params (Some ["color"; "shape"]) np_float64) train = Err (KeyError c').
Proof.
  assert ("shape" ∈ ["color"; "shape"]) as H1
    by (apply elem_of_cons; right; apply elem_of_cons; left; reflexivity).
  assert ("shape" ∉ ddf_columns train) as H2
    by (apply (bool_decide_unpack _); vm_compute; exact I).
  split; [exact H1|]. split; [exact H2|].
  destruct (fit_unknown_column (Params (Some ["color"; "shape"]) np_float64) train
              ["color"; "shape"] "shape" eq_refl H1 H2) as (c' & _ & _ & H).
  by exists c'.
Defined.

(** X8.  Missing values never enter a vocabulary: no fitted vocabulary
    holds a not-a-number or a None, so at transform time every such cell of
    a categorical column gets the code 0 of the unseen values. *)
Theorem missing_values_encode_to_zero
    (p : params) (X : ddf) (self : encoder) (col : string) :
  fit p X = Ok self ->
  col ∈ categorical_columns_ self ->
  exists cat mappings,
    categories_ self !! col = Some cat /\
    Forall (fun v => notnull v = true) cat /\
    make_mappings (categorical_columns_ self) (categories_ self) (enc_dtype self)
    = Ok mappings /\
    forall values, exists codes mappings',
      vectorize_encode mappings values col = Ok (codes, mappings') /\
      Forall2 (fun v code => notnull v = false -> code = 0%Z) values codes.
Proof.
  intros Hfit Hcol.
  destruct (fit_inv _ _ _ Hfit) as (_ & _ & _ & _ & Hcats).
  destruct (Hcats col Hcol) as (k & cats & cat & _ & _ & Hcc & Hsort & Hcat).
  destruct (cat_categories_inv _ _ _ Hcc) as (_ & Hnnc & _).
  destruct (sort_values_spec _ _ Hsort) as [_ Hperm].
  assert (Forall (fun v => notnull v = true) cat) as Hnn by (by rewrite Hperm).
  destruct (make_mappings_total (categorical_columns_ self) (categories_ self)
              (enc_dtype self)) as [mappings Hm].
  { intros c Hc. destruct (Hcats c Hc) as (? & ? & s & _ & _ & _ & _ & Hs). by exists s. }
  destruct (make_mappings_lookup _ _ _ _ col Hm Hcol) as (cat' & Hcat' & Hml).
  assert (cat' = cat) as -> by congruence.
  exists cat, mappings. split_and!; try done.
  intros values.
  destruct (vectorize_encode_spec values mappings col _ Hml) as (m' & Hv & _).
  eexists _, _. split; [exact Hv|].
  apply Forall2_fmap_r, Forall_Forall2_diag, Forall_forall.
  intros v _ Hv0. unfold code_of. rewrite make_mapping_not_elem; [done|].
  intros Hin. rewrite Forall_forall in Hnn. specialize (Hnn v Hin). congruence.
Qed.

Lemma missing_values_encode_to_zero_witness :
  fit (Params None np_float64) train = Ok scenario_encoder /\
  "color" ∈ categorical_columns_ scenario_encoder /\
  exists cat, categories_ scenario_encoder !! "color" = Some cat /\
              Forall (fun v => notnull v = true) cat.
Proof.
  assert (fit (Params None np_float64) train = Ok scenario_encoder) as Hfit
    by (vm_compute; reflexivity).
  assert ("color" ∈ categorical_columns_ scenario_encoder) as Hcol
    by (apply elem_of_cons; left; reflexivity).
  split; [exact Hfit|]. split; [exact Hcol|].
  destruct (missing_values_encode_to_zero _ _ _ _ Hfit Hcol) as (cat & _ & H1 & H2 & _).
  by exists cat.
Defined.

End FitState.

(** ** More on the two backends: stacking, concatenation, splitting *)

Section Stacking.
Import Dask.
Context {T : carriers} `{!Library T}.

Lemma comprehension_length {A B} (f : A -> result B) xs ys :
  comprehension f xs = Ok ys -> length ys = length xs.
Proof.
  revert ys. induction xs as [|x xs IH]; intros ys; cbn.
  - by intros [= <-].
  - destruct (f x); [|done]. cbn.
    destruct (comprehension f xs) as [zs|]; [|done]. cbn.
    intros [= <-]. cbn. f_equal. by apply IH.
Qed.

Lemma comprehension_not_ok {A B} (f : A -> result B) xs x :
  x ∈ xs -> is_ok (f x) = false -> is_ok (comprehension f xs) = false.
Proof.
  intros Hx Hf. induction xs as [|y xs IH]; [by apply elem_of_nil in Hx|].
  cbn. destruct (f y) as [b|] eqn:Hy; [|done]. cbn.
  apply elem_of_cons in Hx as [->|Hx]; [by rewrite Hy in Hf|].
  specialize (IH Hx). by destruct (comprehension f xs).
Qed.

Lemma make_chunk_size_known_post `{!Laws T} (a r : object T) :
  make_chunk_size_known a = Ok r ->
  exists r0 : da_Array T, r = DaskArray r0 /\ any_unknown (chunks r0) = false.
Proof.
  intros Hr.
  destruct (make_chunk_size_known_inv _ _ Hr) as (a0 & r0 & -> & -> & [[Hu ->]|[_ Hc]]).
  - by exists a0.
  - exists r0. split; [done|]. by eapply compute_chunk_sizes_known.
Qed.

(** X9.  When [hstack_array] or [vstack_array] is given more than one array
    and returns, every array that reached [da.hstack] or [da.vstack] was a
    partitioned array with all its chunk lengths known, and there were as
    many of them as were given. *)
Theorem stack_repairs_every_input `{!Laws T} (arrs : list (object T)) (r : object T) :
  (1 < length arrs)%nat ->
  (hstack_array arrs = Ok r ->
   exists arrs', da_hstack arrs' = Ok r /\ length arrs' = length arrs /\
     Forall (fun a => exists a0 : da_Array T,
                        a = DaskArray a0 /\ any_unknown (chunks a0) = false) arrs') /\
  (vstack_array arrs = Ok r ->
   exists arrs', da_vstack arrs' = Ok r /\ length arrs' = length arrs /\
     Forall (fun a => exists a0 : da_Array T,
                        a = DaskArray a0 /\ any_unknown (chunks a0) = false) arrs').
Proof.
  intros Hlen. unfold hstack_array, vstack_array.
  rewrite decide_True by done.
  destruct (comprehension make_chunk_size_known arrs) as [arrs'|] eqn:Hc; cbn; [|done].
  assert (length arrs' = length arrs) as Hl by by eapply comprehension_length.
  assert (Forall (fun a => exists a0 : da_Array T,
                    a = DaskArray a0 /\ any_unknown (chunks a0) = false) arrs') as Hk.
  { eapply comprehension_Forall; [|exact Hc].
    intros x y. apply make_chunk_size_known_post. }
  split; intros H; by exists arrs'.
Qed.

(** X10.  The stacking functions check their inputs only when there is more
    than one: a single input goes to [da.hstack] or [da.vstack] as it is,
    repaired or not, array or not, while among several inputs one that is
    not a partitioned array makes the call raise. *)
Theorem stack_checks_only_several (a : object T) (arrs : list (object T)) (x : object T) :
  hstack_array [a] = da_hstack [a] /\
  vstack_array [a] = da_vstack [a] /\
  ((1 < length arrs)%nat -> x ∈ arrs -> is_dask_array x = false ->
   is_ok (hstack_array arrs) = false /\ is_ok (vstack_array arrs) = false).
Proof.
  split_and!; [done|done|].
  intros Hlen Hx Hnot. unfold hstack_array, vstack_array.
  rewrite decide_True by done.
  assert (is_ok (comprehension make_chunk_size_known arrs) = false) as Hf.
  { apply (comprehension_not_ok _ _ x Hx).
    unfold make_chunk_size_known. by rewrite Hnot. }
  by destruct (comprehension make_chunk_size_known arrs).
Qed.

Lemma make_divisions_known_post (d r : object T) :
  make_divisions_known d = Ok r ->
  is_dask_object r = true /\
  forall X : dd_DataFrame T, r = DaskFrame X -> known_divisions X = true.
Proof.
  unfold make_divisions_known.
  destruct d as [| | |a|X0|s|]; try done; cbn.
  - destruct (any_unknown (chunks a)); [destruct (compute_chunk_sizes a)|]; cbn;
      try done; by intros [= <-].
  - destruct (make_frame_divisions_known X0) as [X'|] eqn:HX; [|done].
    cbn. intros [= <-]. split; [done|]. intros X [= <-].
    by eapply make_frame_divisions_known_post.
  - destruct (series_known_divisions s); cbn; [by intros [= <-]|].
    destruct (make_frame_divisions_known (to_frame s)); [|done]. cbn.
    destruct (frame_getitem _ _); [|done]. cbn. by intros [= <-].
Qed.

(** X11.  When [concat_df] along the columns returns on a list that holds a
    partitioned table, every input was a dask object, every one was put
    through division repair, and every table that reached [dd.concat] had
    known divisions. *)
Theorem concat_columns_repairs_every_input
    (dfs : list (object T)) (rp : bool) (kw : kwargs T) (r : object T) :
  exist_dask_dataframe dfs = true ->
  concat_df dfs 1 rp kw = Ok r ->
  exists (dfs' : list (object T)) (df : dd_DataFrame T),
    comprehension make_divisions_known dfs = Ok dfs' /\
    length dfs' = length dfs /\
    Forall (fun d => is_dask_object d = true) dfs /\
    Forall (fun d => is_dask_object d = true /\
                     forall X : dd_DataFrame T, d = DaskFrame X -> known_divisions X = true)
           dfs' /\
    dd_concat dfs' 1 kw = Ok df.
Proof.
  intros He. unfold concat_df. rewrite He. rewrite decide_True by done.
  destruct (comprehension make_divisions_known dfs) as [dfs'|] eqn:Hc; [|done]. cbn.
  destruct (dd_concat dfs' 1 kw) as [df|] eqn:Hd; [|done]. intros _.
  exists dfs', df. split_and!; try done.
  - by eapply comprehension_length.
  - apply Forall_forall. intros d Hd'.
    destruct (is_dask_object d) eqn:Ho; [done|].
    pose proof (comprehension_not_ok make_divisions_known dfs d Hd') as Hf.
    rewrite Hc in Hf. cbn in Hf. symmetry. apply Hf.
    unfold make_divisions_known. by rewrite Ho.
  - eapply comprehension_Forall; [|exact Hc].
    intros x y. apply make_divisions_known_post.
Qed.

(** X12.  Asking [concat_df] to repartition along the rows when the first
    input is an eager object fails after the concatenation has been done:
    the partition count is read from the first input, which has none. *)
Theorem concat_repartition_needs_partitioned_head
    (d : object T) (dfs : list (object T)) (axis : Z) (kw : kwargs T)
    (df : dd_DataFrame T) :
  exist_dask_dataframe (d :: dfs) = true ->
  axis <> 1%Z ->
  is_dask_object d = false ->
  dd_concat (d :: dfs) axis kw = Ok df ->
  concat_df (d :: dfs) axis true kw = Err AttributeError /\
  concat_df (d :: dfs) axis false kw = Ok (DaskFrame df).
Proof.
  intros He Hax Hd Hc. unfold concat_df. rewrite He.
  rewrite decide_False by done. cbn. rewrite Hc. cbn.
  split; [|done]. by destruct d.
Qed.

End Stacking.

Section StackingWitness.
Import Dask Toy.

Lemma stack_repairs_every_input_witness :
  Laws Toy.T /\
  (1 < length [unknown_array; unknown_array])%nat /\
  hstack_array [unknown_array; unknown_array]
  = Ok (DaskArray (T:=Toy.T) (ToyArray [3; 2]%nat true)) /\
  exists arrs',
    da_hstack arrs' = Ok (DaskArray (T:=Toy.T) (ToyArray [3; 2]%nat true)) /\
    length arrs' = 2%nat.
Proof.
  assert (1 < length [unknown_array; unknown_array])%nat as Hlen by (cbn; lia).
  split; [exact toy_laws|]. split; [exact Hlen|]. split; [reflexivity|].
  destruct (stack_repairs_every_input (T:=Toy.T) (Laws0:=toy_laws)
              [unknown_array; unknown_array]
              (DaskArray (T:=Toy.T) (ToyArray [3; 2]%nat true)) Hlen) as [Hh _].
  destruct (Hh eq_refl) as (arrs' & H1 & H2 & _).
  exists arrs'. split; [exact H1|exact H2].
Defined.

Lemma stack_checks_only_several_witness :
  (1 < length [unknown_array; eager_frame])%nat /\
  eager_frame ∈ [unknown_array; eager_frame] /\
  is_dask_array eager_frame = false /\
  is_ok (hstack_array [unknown_array; eager_frame]) = false /\
  is_ok (hstack_array [eager_frame]) = true.
Proof.
  assert (1 < length [unknown_array; eager_frame])%nat as Hlen by (cbn; lia).
  assert (eager_frame ∈ [unknown_array; eager_frame]) as Hin
    by (apply elem_of_cons; right; apply elem_of_cons; left; reflexivity).
  split; [exact Hlen|]. split; [exact Hin|]. split; [reflexivity|].
  destruct (stack_checks_only_several (T:=Toy.T) eager_frame
              [unknown_array; eager_frame] eager_frame) as (H1 & _ & H3).
  split; [exact (proj1 (H3 Hlen Hin eq_refl))|].
  rewrite H1. reflexivity.
Defined.

Lemma concat_columns_repairs_every_input_witness :
  exist_dask_dataframe [DaskFrame (T:=Toy.T) unknown_frame; unknown_series] = true /\
  concat_df [DaskFrame (T:=Toy.T) unknown_frame; unknown_series] 1 false tt
  = Ok (DaskFrame (T:=Toy.T) (ToyFrame ["a"; "b"] 5 true)) /\
  exists dfs' : list (object Toy.T),
    comprehension make_divisions_known [DaskFrame (T:=Toy.T) unknown_frame; unknown_series]
    = Ok dfs' /\
    length dfs' = 2%nat.
Proof.
  assert (concat_df [DaskFrame (T:=Toy.T) unknown_frame; unknown_series] 1 false tt
          = Ok (DaskFrame (T:=Toy.T) (ToyFrame ["a"; "b"] 5 true))) as Hc by reflexivity.
  split; [reflexivity|]. split; [exact Hc|].
  destruct (concat_columns_repairs_every_input (T:=Toy.T)
              [DaskFrame (T:=Toy.T) unknown_frame; unknown_series] false tt
              (DaskFrame (T:=Toy.T) (ToyFrame ["a"; "b"] 5 true)) eq_refl Hc)
    as (dfs' & df & H1 & H2 & _).
  exists dfs'. split; [exact H1|exact H2].
Defined.

Lemma concat_repartition_needs_partitioned_head_witness :
  exist_dask_dataframe [eager_frame; DaskFrame (T:=Toy.T) unknown_frame] = true /\
  (0 <> 1)%Z /\
  is_dask_object eager_frame = false /\
  concat_df [eager_frame; DaskFrame (T:=Toy.T) unknown_frame] 0 true tt
  = Err AttributeError.
Proof.
  split; [reflexivity|]. split; [discriminate|]. split; [reflexivity|].
  apply (concat_repartition_needs_partitioned_head (T:=Toy.T) eager_frame
           [DaskFrame (T:=Toy.T) unknown_frame] 0 tt (ToyFrame ["c"] 5 true));
    [reflexivity|discriminate|reflexivity|reflexivity].
Defined.

End StackingWitness.

Section SplitPreparation.
Import Dask.
Context {T : carriers} `{!Library T}.

(** X13.  When [train_test_split] returns on several datasets of which one
    is a partitioned table, the partitioned splitter was given as many
    datasets as the caller passed, every one a dask object (eager inputs
    promoted first) and every table with known divisions; with a single
    dataset the splitter gets it as it is, with no repair. *)
Theorem train_test_split_prepares_inputs
    (data : list (object T)) (shuffle : bool) (seed : random_state T) (kw : kwargs T)
    (g : rng T) (r : list (object T)) :
  exist_dask_dataframe data = true ->
  ((1 < length data)%nat ->
   (train_test_split data shuffle seed kw g).1 = Ok r ->
   exists data' : list (object T),
     comprehension (fun x => make_divisions_known (to_dask_type x)) data = Ok data' /\
     length data' = length data /\
     Forall (fun d => is_dask_object d = true /\
                      forall X : dd_DataFrame T, d = DaskFrame X -> known_divisions X = true)
            data' /\
     train_test_split data shuffle seed kw g
     = dm_train_test_split data' shuffle seed kw g) /\
  (length data = 1%nat ->
   train_test_split data shuffle seed kw g = dm_train_test_split data shuffle seed kw g).
Proof.
  intros He. unfold train_test_split. rewrite He. split.
  - intros Hlen. rewrite decide_True by done.
    destruct (comprehension _ data) as [data'|] eqn:Hc; [|done].
    intros _. exists data'. split_and!; try done.
    + by eapply comprehension_length.
    + eapply comprehension_Forall; [|exact Hc].
      intros x y. apply make_divisions_known_post.
  - intros Hlen. rewrite decide_False by lia. done.
Qed.

(** [to_dask_type] turns every numpy array and pandas table or column
    into its dask counterpart and leaves everything else alone: its result
    is a dask object unless the input was neither numpy, pandas nor dask,
    a dask object comes back unchanged, and promoting twice is promoting
    once. *)
Theorem to_dask_type_promotes (x : object T) :
  to_dask_type (to_dask_type x) = to_dask_type x /\
  (is_dask_object x = true -> to_dask_type x = x) /\
  (is_dask_object (to_dask_type x) = false -> exists o, x = Other o) /\
  is_dask_dataframe (to_dask_type x)
  = match x with PandasFrame _ | DaskFrame _ => true | _ => false end.
Proof.
  destruct x; cbn; split_and!; try done. by eexists.
Qed.

(** X14.  Division repair returns an object of the kind it was given, a
    table for a table, a column for a column and an array for an array, and
    refuses anything that is not a dask object with [AssertionError]
    without calling the backend. *)
Theorem make_divisions_known_keeps_kind (X r : object T) :
  (make_divisions_known X = Ok r ->
   is_dask_dataframe r = is_dask_dataframe X /\
   is_dask_series r = is_dask_series X /\
   is_dask_array r = is_dask_array X) /\
  (is_dask_object X = false -> make_divisions_known X = Err AssertionError).
Proof.
  split.
  - unfold make_divisions_known.
    destruct X as [| | |a|X0|s|]; try done; cbn.
    + destruct (any_unknown (chunks a)); [destruct (compute_chunk_sizes a)|]; cbn;
        try done; by intros [= <-].
    + destruct (make_frame_divisions_known X0); [|done]. cbn. by intros [= <-].
    + destruct (series_known_divisions s); cbn; [by intros [= <-]|].
      destruct (make_frame_divisions_known (to_frame s)); [|done]. cbn.
      destruct (frame_getitem _ _); [|done]. cbn. by intros [= <-].
  - intros Hx. unfold make_divisions_known. by rewrite Hx.
Qed.

End SplitPreparation.

Section SplitPreparationWitness.
Import Dask Toy.

Lemma train_test_split_prepares_inputs_witness :
  exist_dask_dataframe [DaskFrame (T:=Toy.T) unknown_frame; eager_frame] = true /\
  (1 < length [DaskFrame (T:=Toy.T) unknown_frame; eager_frame])%nat /\
  exists data' : list (object Toy.T),
    length data' = 2%nat /\
    Forall (fun d => is_dask_object d = true) data' /\
    train_test_split [DaskFrame (T:=Toy.T) unknown_frame; eager_frame] false
                     default_random_state tt 0%nat
    = dm_train_test_split data' false default_random_state tt 0%nat.
Proof.
  assert (1 < length [DaskFrame (T:=Toy.T) unknown_frame; eager_frame])%nat as Hlen
    by (cbn; lia).
  split; [reflexivity|]. split; [exact Hlen|].
  destruct (train_test_split_prepares_inputs (T:=Toy.T)
              [DaskFrame (T:=Toy.T) unknown_frame; eager_frame] false
              default_random_state tt 0%nat
              [DaskFrame (T:=Toy.T) (ToyFrame ["a"; "b"] 5 true);
               DaskFrame (T:=Toy.T) (ToyFrame ["c"] 5 true)] eq_refl) as [H _].
  destruct (H Hlen eq_refl) as (data' & _ & H2 & H3 & H4).
  exists data'. split; [exact H2|]. split; [|exact H4].
  eapply Forall_impl; [exact H3|]. by intros d [? _].
Defined.

Lemma to_dask_type_promotes_witness :
  is_dask_object (DaskFrame (T:=Toy.T) unknown_frame) = true /\
  to_dask_type (DaskFrame (T:=Toy.T) unknown_frame) = DaskFrame (T:=Toy.T) unknown_frame /\
  to_dask_type (to_dask_type eager_frame) = to_dask_type eager_frame.
Proof.
  split; [reflexivity|]. split.
  - apply (to_dask_type_promotes (T:=Toy.T) (DaskFrame (T:=Toy.T) unknown_frame)).
    reflexivity.
  - apply (to_dask_type_promotes (T:=Toy.T) eager_frame).
Defined.

Lemma make_divisions_known_keeps_kind_witness :
  make_divisions_known unknown_series
  = Ok (DaskSeries (T:=Toy.T) (ToySeries "a" 5 true)) /\
  is_dask_object eager_frame = false /\
  is_dask_series (DaskSeries (T:=Toy.T) (ToySeries "a" 5 true)) = is_dask_series unknown_series /\
  make_divisions_known eager_frame = Err AssertionError.
Proof.
  assert (make_divisions_known unknown_series
          = Ok (DaskSeries (T:=Toy.T) (ToySeries "a" 5 true))) as Hs by reflexivity.
  split; [exact Hs|]. split; [reflexivity|]. split.
  - destruct (make_divisions_known_keeps_kind (T:=Toy.T) unknown_series
                (DaskSeries (T:=Toy.T) (ToySeries "a" 5 true))) as [H _].
    exact (proj1 (proj2 (H Hs))).
  - destruct (make_divisions_known_keeps_kind (T:=Toy.T) eager_frame eager_frame) as [_ H].
    exact (H eq_refl).
Defined.

End SplitPreparationWitness.

(** ** More on the intercept chain: the cache *)

Section Cache.
Import Dask Intercept.
Context {T : carriers} `{!Persist (T:=T)}.

Lemma lookup_foldl_delete (ks : list string) (c : gmap string (object T)) (j : string) :
  foldl (fun c key => delete key c) c ks !! j
  = if decide (j ∈ ks) then None else c !! j.
Proof.
  revert c. induction ks as [|k ks IH]; intros c; cbn.
  - rewrite decide_False; [done|apply not_elem_of_nil].
  - rewrite IH. destruct (decide (j ∈ ks)) as [Hj|Hj].
    + rewrite decide_True; [done|]. apply elem_of_cons. by right.
    + destruct (decide (k = j)) as [->|Hne].
      * rewrite lookup_delete_eq. rewrite decide_True; [done|]. apply elem_of_cons. by left.
      * rewrite lookup_delete_ne by done. rewrite decide_False; [done|].
        rewrite not_elem_of_cons. split; [congruence|done].
Qed.

(** X15.  What a [DataCacher] step does.  With a usable cache key (not None,
    not empty) it returns the data persisted when the data is a partitioned
    table or array, as it is otherwise, and stores what it returns under
    the key; without one it returns the data untouched and stores nothing.
    Afterwards every key of [remove_keys] is gone from the cache, the cache
    key itself included when it is one of them, and every other entry is as
    it was. *)
Theorem data_cacher_effect (self : encoder (T:=T)) (key : option string)
    (rk : option (list string)) (X : object T) (c : gmap string (object T)) :
  class_ self = DataCacher key rk ->
  let X' := match truthy_key key with Some _ => persist X | None => X end in
  (intercept self X c).1 = Ok X' /\
  (is_dask_dataframe X = false -> is_dask_array X = false -> X' = X) /\
  forall j : string,
    (intercept self X c).2 !! j
    = if decide (j ∈ default [] rk) then None
      else if decide (truthy_key key = Some j) then Some X'
      else c !! j.
Proof.
  intros Hcls. cbn zeta. unfold intercept. rewrite Hcls.
  split_and!.
  - by destruct (truthy_key key).
  - intros H1 H2. destruct (truthy_key key); [|done]. by destruct X.
  - intros j.
    assert (forall (Y : object T) (c0 : gmap string (object T)),
              match rk with
              | Some (k :: ks) => foldl (fun c key => delete key c) c0 (k :: ks)
              | _ => c0
              end !! j
              = if decide (j ∈ default [] rk) then None else c0 !! j) as Hrm.
    { intros _ c0. destruct rk as [[|k ks]|]; cbn [default].
      - rewrite decide_False; [done|apply not_elem_of_nil].
      - apply lookup_foldl_delete.
      - rewrite decide_False; [done|apply not_elem_of_nil]. }
    destruct (truthy_key key) as [k|] eqn:Hk; cbn.
    + rewrite (Hrm X). destruct (decide (j ∈ default [] rk)); [done|].
      destruct (decide (Some k = Some j)) as [[= ->]|Hne].
      * apply lookup_insert_eq.
      * rewrite lookup_insert_ne; [done|congruence].
    + rewrite (Hrm X). destruct (decide (j ∈ default [] rk)); [done|].
      by rewrite decide_False.
Qed.

(** A [CacheCleaner] step empties the cache on every hook that is
    switched on and hands the data through: the three transforming hooks
    return the data as it came, [fit] returns the transformer, and in each
    case nothing is left in the cache. *)
Theorem cache_cleaner_empties (self : encoder (T:=T)) (h : hook)
    (X : object T) (c : gmap string (object T)) :
  class_ self = CacheCleaner ->
  toggle h self = true ->
  call h self X c
  = (Ok (match h with Fit => Self self | _ => Data X end), ∅).
Proof.
  intros Hcls Ht. destruct h; cbn in *;
    unfold fit, fit_transform, transform, inverse_transform, intercept;
    by rewrite Ht, Hcls.
Qed.

End Cache.

Section CacheWitness.
Import Dask Intercept Toy.

Lemma data_cacher_effect_witness :
  class_ cacher = DataCacher (Some "train") (Some ["old"; "tmp"]) /\
  (intercept cacher unknown_array old_cache).1
  = Ok (DaskArray (T:=Toy.T) (ToyArray [3; 2]%nat true)) /\
  (intercept cacher unknown_array old_cache).2 !! "old" = None /\
  (intercept cacher unknown_array old_cache).2 !! "train"
  = Some (DaskArray (T:=Toy.T) (ToyArray [3; 2]%nat true)) /\
  (intercept cacher unknown_array old_cache).2 !! "keep" = Some eager_frame.
Proof.
  assert (class_ cacher = DataCacher (Some "train") (Some ["old"; "tmp"])) as Hcls
    by reflexivity.
  split; [exact Hcls|].
  destruct (data_cacher_effect cacher _ _ unknown_array old_cache Hcls) as (H1 & _ & H3).
  split; [exact H1|]. split_and!.
  - rewrite (H3 "old"). reflexivity.
  - rewrite (H3 "train"). reflexivity.
  - rewrite (H3 "keep"). reflexivity.
Defined.

Lemma cache_cleaner_empties_witness :
  call Transform (Encoder false false true false CacheCleaner) unknown_array old_cache
  = (Ok (Data unknown_array), ∅).
Proof.
  exact (cache_cleaner_empties (T:=Toy.T) (Encoder false false true false CacheCleaner)
           Transform unknown_array old_cache eq_refl eq_refl).
Defined.

End CacheWitness.

(** ** More on permutation_importance *)

Section Scores.
Import Dask Importance.
Context {T : carriers} `{!Library T} `{!Scoring (T:=T)}.

Lemma repeat_scores_length sc est (X : dd_DataFrame T) y c n : forall g ss g',
  repeat_scores sc est X y c n g = (Ok ss, g') -> length ss = n.
Proof.
  induction n as [|n IH]; intros g ss g'; cbn.
  - by intros [= <- _].
  - destruct (shuffle_partitions X c g) as [[Xp|] g1]; [|done].
    destruct (apply_scorer sc est (DaskFrame Xp) y) as [s|]; [|done].
    destruct (repeat_scores sc est X y c n g1) as [[ss'|] g2] eqn:Hr; [|done].
    intros [= <- _]. cbn. f_equal. by eapply IH.
Qed.

Lemma column_scores_shape sc est (X : dd_DataFrame T) y n cs : forall g scores,
  column_scores sc est X y cs n g = Ok scores ->
  length scores = length cs /\ Forall (fun r => length r = n) scores.
Proof.
  induction cs as [|c cs IH]; intros g scores; cbn.
  - intros [= <-]. split; [done|constructor].
  - destruct (repeat_scores sc est X y c n g) as [[col|] g1] eqn:Hr; [|done].
    destruct (column_scores sc est X y cs n g1) as [rest|] eqn:Hc; [|done]. cbn.
    intros [= <-]. destruct (IH _ _ Hc) as [Hl Hf]. split; [cbn; by f_equal|].
    constructor; [by eapply repeat_scores_length|done].
Qed.

(** X16.  When [permutation_importance] returns on a partitioned table, the
    [Bunch] is built from the baseline score of the wrapped estimator on
    the table as given, and from one row of scores per column of the table,
    each row holding exactly [n_repeats] scores. *)
Theorem permutation_importance_score_matrix
    (est : gmap string callable) (X0 : dd_DataFrame T) (y : object T)
    (sco : scoring) (n_repeats : nat) (random_state : option Z) (b : bunch) :
  (permutation_importance est (DaskFrame X0) y sco n_repeats random_state).1 = Ok b ->
  exists (sc : scorer) (y' : object T) (baseline : score) (scores : list (list score)),
    check_scoring (wrap_estimator est) sco = Ok sc /\
    apply_scorer sc (wrap_estimator est) (DaskFrame X0) y' = Ok baseline /\
    b = make_bunch baseline scores /\
    length scores = shape_1 X0 /\
    Forall (fun r => length r = n_repeats) scores.
Proof.
  unfold permutation_importance.
  destruct (check_random_state random_state) as [g|]; [|done].
  destruct (if is_dask_object y then compute y else Ok y) as [y'|]; [|done]. cbn.
  destruct (check_scoring (wrap_estimator est) sco) as [sc|] eqn:Hsc; [|done]. cbn.
  destruct (apply_scorer sc (wrap_estimator est) (DaskFrame X0) y') as [bl|] eqn:Hb;
    [|done]. cbn.
  destruct (column_scores sc (wrap_estimator est) X0 y' (seq 0 (shape_1 X0)) n_repeats g)
    as [scores|] eqn:Hs; [|done]. cbn.
  intros [= <-]. exists sc, y', bl, scores.
  destruct (column_scores_shape _ _ _ _ _ _ _ _ Hs) as [Hl Hf].
  rewrite length_seq in Hl. by split_and!.
Qed.

(** X17.  A second call on the same estimator wraps the wrappers: after two
    calls that each got as far as wrapping, [predict] is the first wrapper
    wrapped again and [_orig_predict] holds the first wrapper, so the
    original method is no longer what [_orig_predict] names. *)
Theorem permutation_importance_twice_nests
    (est : gmap string callable) (orig : callable) (X0 X1 : dd_DataFrame T)
    (y y' : object T) (sco : scoring) (n_repeats : nat) (random_state : option Z)
    (g : rng T) :
  check_random_state random_state = Ok g ->
  (if is_dask_object y then compute y else Ok y) = Ok y' ->
  est !! "predict" = Some orig ->
  let est1 := (permutation_importance est (DaskFrame X0) y sco n_repeats random_state).2 in
  let est2 := (permutation_importance est1 (DaskFrame X1) y sco n_repeats random_state).2 in
  est2 !! "predict" = Some (CallAndCompute (CallAndCompute orig)) /\
  est2 !! "_orig_predict" = Some (CallAndCompute orig) /\
  est2 !! "_orig_predict" <> Some orig.
Proof.
  intros Hrs Hy Hp. cbn zeta.
  assert (forall (e : gmap string callable) (X : dd_DataFrame T),
            (permutation_importance e (DaskFrame X) y sco n_repeats random_state).2
            = wrap_estimator e) as Hw.
  { intros e X. unfold permutation_importance. by rewrite Hrs, Hy. }
  rewrite !Hw.
  destruct (wrap_estimator_spec est) as (H1 & _).
  destruct (H1 orig Hp) as [Hp1 _].
  destruct (wrap_estimator_spec (wrap_estimator est)) as (H2 & _).
  destruct (H2 _ Hp1) as [Hp2 Ho2].
  split_and!; [done|done|].
  rewrite Ho2. intros [= Heq].
  clear -Heq. induction orig as [n|fn IH]; [done|]. injection Heq as Heq. by apply IH.
Qed.

(** X18.  A call that fails before the wrapping leaves the estimator as it
    was: when the seed is refused, or when materialising [y] raises, the
    call raises that exception and no attribute of the estimator has
    changed. *)
Theorem permutation_importance_early_failure
    (est : gmap string callable) (X0 : dd_DataFrame T) (y : object T)
    (sco : scoring) (n_repeats : nat) (random_state : option Z) (e : exn) :
  (check_random_state random_state = Err e ->
   permutation_importance est (DaskFrame X0) y sco n_repeats random_state = (Err e, est)) /\
  (is_ok (check_random_state random_state) = true ->
   is_dask_object y = true ->
   compute y = Err e ->
   permutation_importance est (DaskFrame X0) y sco n_repeats random_state = (Err e, est)).
Proof.
  unfold permutation_importance. split.
  - by intros ->.
  - intros Hok Hy Hc. destruct (check_random_state random_state); [|done].
    by rewrite Hy, Hc.
Qed.

End Scores.

Section ScoresWitness.
Import Dask Importance Toy.

Lemma permutation_importance_score_matrix_witness :
  (permutation_importance classifier (DaskFrame (T:=Toy.T) unknown_frame) eager_frame
     default_scoring 3 (Some 3)).1 = Ok (1%Z, [[1; 1; 1]; [1; 1; 1]]%Z) /\
  exists scores : list (list Z),
    (1%Z, [[1; 1; 1]; [1; 1; 1]]%Z) = make_bunch 1%Z scores /\
    length scores = 2%nat /\
    Forall (fun r => length r = 3%nat) scores.
Proof.
  assert ((permutation_importance classifier (DaskFrame (T:=Toy.T) unknown_frame)
             eager_frame default_scoring 3 (Some 3)).1
          = Ok (1%Z, [[1; 1; 1]; [1; 1; 1]]%Z)) as Hr by reflexivity.
  split; [exact Hr|].
  destruct (permutation_importance_score_matrix (T:=Toy.T) classifier unknown_frame
              eager_frame default_scoring 3 (Some 3) _ Hr)
    as (sc & y' & bl & scores & _ & Hb & H1 & H2 & H3).
  exists scores. split; [|split; [exact H2|exact H3]].
  rewrite H1. f_equal. cbn in Hb. by injection Hb as <-.
Defined.

Lemma permutation_importance_twice_nests_witness :
  check_random_state (Some 3) = Ok 3%nat /\
  classifier !! "predict" = Some (Method "predict") /\
  let est1 := (permutation_importance classifier (DaskFrame (T:=Toy.T) unknown_frame)
                 eager_frame default_scoring 1 (Some 3)).2 in
  let est2 := (permutation_importance est1 (DaskFrame (T:=Toy.T) unknown_frame)
                 eager_frame default_scoring 1 (Some 3)).2 in
  est2 !! "_orig_predict" = Some (CallAndCompute (Method "predict")).
Proof.
  split; [reflexivity|]. split; [reflexivity|].
  exact (proj1 (proj2 (permutation_importance_twice_nests (T:=Toy.T) classifier
           (Method "predict") unknown_frame unknown_frame eager_frame eager_frame
           default_scoring 1 (Some 3) 3%nat eq_refl eq_refl eq_refl))).
Defined.

Lemma permutation_importance_early_failure_witness :
  check_random_state (Some (-3)%Z) = Err (ValueError CannotConvert) /\
  permutation_importance classifier (DaskFrame (T:=Toy.T) unknown_frame) eager_frame
    default_scoring 1 (Some (-3)%Z)
  = (Err (ValueError CannotConvert), classifier).
Proof.
  split; [reflexivity|].
  exact (proj1 (permutation_importance_early_failure (T:=Toy.T) classifier unknown_frame
                  eager_frame default_scoring 1 (Some (-3)%Z) (ValueError CannotConvert))
               eq_refl).
Defined.

End ScoresWitness.

(** ** MultiLabelEncoder: one label encoder per column *)

Section MultiLabel.
Import MultiLabelEncoder.
Context {column label_encoder : Type}.
Context (le_fit : column -> result label_encoder).
Context (le_transform : label_encoder -> column -> result column).

Abbreviation fit_columns := (fit_columns le_fit).
Abbreviation transform_columns := (transform_columns le_transform).
Abbreviation fit := (fit le_fit).
Abbreviation transform := (transform le_transform).

Lemma fit_columns_returns cols : forall (self self' : gmap nat label_encoder) n,
  fit_columns self n cols = (Returns tt, self') ->
  (forall i col, cols !! i = Some col ->
     exists le, le_fit col = Ok le /\ self' !! (n + i)%nat = Some le) /\
  (forall j, (j < n \/ n + length cols <= j)%nat -> self' !! j = self !! j).
Proof.
  induction cols as [|col cols IH]; intros self self' n; cbn.
  - intros [= <-]. split; [intros i c Hi; by rewrite lookup_nil in Hi|done].
  - destruct (le_fit col) as [le|] eqn:Hle; [|done].
    intros H. destruct (IH _ _ _ H) as [Hin Hout]. split.
    + intros [|i] c; cbn.
      * intros [= <-]. exists le. split; [done|].
        rewrite Hout by lia. rewrite Nat.add_0_r. apply lookup_insert_eq.
      * intros Hi. destruct (Hin i c Hi) as (le' & ? & Hl). exists le'.
        split; [done|]. by replace (n + S i)%nat with (S n + i)%nat by lia.
    + intros j Hj. rewrite Hout by lia. apply lookup_insert_ne. lia.
Qed.

Lemma fit_columns_raises cols : forall (self self' : gmap nat label_encoder) n r,
  fit_columns self n cols = (Raises r, self') ->
  exists (i : nat) (col : column) (e : exn),
    r = FromLabelEncoder e /\ cols !! i = Some col /\ le_fit col = Err e /\
    (forall j c, (j < i)%nat -> cols !! j = Some c ->
       exists le, le_fit c = Ok le /\ self' !! (n + j)%nat = Some le) /\
    (forall j, (j < n \/ n + i <= j)%nat -> self' !! j = self !! j).
Proof.
  induction cols as [|col cols IH]; intros self self' n r; cbn; [done|].
  destruct (le_fit col) as [le|e] eqn:Hle.
  - intros H. destruct (IH _ _ _ _ H) as (i & c & e & -> & Hi & He & Hbefore & Hafter).
    exists (S i), c, e. split_and!; try done.
    + intros [|j] c0 Hj; cbn.
      * intros [= <-]. exists le. split; [done|].
        rewrite Hafter by lia. rewrite Nat.add_0_r. apply lookup_insert_eq.
      * intros Hc0. destruct (Hbefore j c0 ltac:(lia) Hc0) as (le' & ? & Hl).
        exists le'. split; [done|]. by replace (n + S j)%nat with (S n + j)%nat by lia.
    + intros j Hj. rewrite Hafter by lia. apply lookup_insert_ne. lia.
  - intros [= <- <-]. exists 0%nat, col, e. split_and!; try done.
    intros j c Hj. lia.
Qed.

Lemma fit_returns_inv (self self' : gmap nat label_encoder) X y :
  fit self X y = (Returns tt, self') ->
  exists cols, is_table_or_array X = true /\ n_features X = length cols /\
    fit_columns self 0 cols = (Returns tt, self') /\
    match X with Frame _ _ v | Array _ v => v = cols | _ => False end.
Proof.
  destruct X as [p names v|p v| |]; cbn; try done.
  - destruct y; [|done]. intros H. by exists v.
  - intros H. by exists v.
Qed.

Lemma size_at_least (m : gmap nat label_encoder) n :
  (forall j, (j < n)%nat -> is_Some (m !! j)) -> (n <= size m)%nat.
Proof.
  intros H. rewrite <- size_dom.
  rewrite <- (size_set_seq (C:=gset nat) 0 n).
  apply subseteq_size. intros j Hj. apply elem_of_set_seq in Hj.
  apply elem_of_dom, H. lia.
Qed.

Lemma size_exactly (m : gmap nat label_encoder) n :
  (forall j, is_Some (m !! j) <-> (j < n)%nat) -> size m = n.
Proof.
  intros H. rewrite <- size_dom.
  rewrite <- (size_set_seq (C:=gset nat) 0 n). f_equal.
  apply set_eq. intros j. rewrite elem_of_dom, elem_of_set_seq, H. lia.
Qed.

Lemma size_more (m : gmap nat label_encoder) n k :
  (forall j, (j < n)%nat -> is_Some (m !! j)) -> (n <= k)%nat -> is_Some (m !! k) ->
  (n < size m)%nat.
Proof.
  intros H Hk Hs. destruct Hs as [le Hle].
  rewrite <- (insert_delete_id m k le Hle).
  rewrite map_size_insert_None by apply lookup_delete_eq.
  apply Nat.lt_succ_r, size_at_least. intros j Hj.
  rewrite lookup_delete_ne by lia. by apply H.
Qed.

Lemma transform_width_mismatch (self : gmap nat label_encoder) X :
  is_table_or_array X = true ->
  n_features X <> size self ->
  transform self X = Raises Assertion.
Proof.
  destruct X as [p names v|p v| |]; cbn; try done;
    intros _ Hn; unfold _transform_dask_array; by rewrite decide_False.
Qed.

Lemma transform_columns_returns cols : forall (self : gmap nat label_encoder) n out,
  transform_columns self n cols = Returns out ->
  length out = length cols /\
  forall i col, cols !! i = Some col ->
    exists le c, self !! (n + i)%nat = Some le /\ le_transform le col = Ok c /\
                 out !! i = Some c.
Proof.
  induction cols as [|col cols IH]; intros self n out; cbn.
  - intros [= <-]. split; [done|]. intros i c Hi. by rewrite lookup_nil in Hi.
  - destruct (self !! n) as [le|] eqn:Hle; [|done].
    destruct (le_transform le col) as [c|] eqn:Hc; [|done].
    destruct (transform_columns self (S n) cols) as [cs|] eqn:Hcs; [|done].
    intros [= <-]. destruct (IH _ _ _ Hcs) as [Hl Hi]. split; [cbn; by f_equal|].
    intros [|i] c0; cbn.
    + intros [= <-]. exists le, c. by rewrite Nat.add_0_r.
    + intros Hc0. destruct (Hi i c0 Hc0) as (le' & c' & ? & ? & ?).
      exists le', c'. by replace (n + S i)%nat with (S n + i)%nat by lia.
Qed.

(** X19.  A fresh [MultiLabelEncoder] fitted on a table or array holds one
    label encoder per column, under the keys 0 to the number of columns
    less one, each fitted on its column.  After that [transform] raises
    [AssertionError] on any table or array with another number of columns,
    and when it returns on one of the same width, the result is of the
    same kind, with the same column names and as many columns, column [i]
    being what encoder [i] made of column [i]. *)
Theorem fit_then_transform
    (X : input) (y : target) (self : gmap nat label_encoder) :
  fit ∅ X y = (Returns tt, self) ->
  size self = n_features X /\
  (forall j, is_Some (self !! j) <-> (j < n_features X)%nat) /\
  (forall X', is_table_or_array X' = true -> n_features X' <> n_features X ->
     transform self X' = Raises Assertion) /\
  (forall X' X'', transform self X' = Returns X'' ->
     n_features X'' = n_features X' /\
     match X', X'' with
     | Frame p names v, Frame p' names' v' =>
         p' = p /\ names' = names /\
         forall i col, v !! i = Some col ->
           exists le c, self !! i = Some le /\ le_transform le col = Ok c /\ v' !! i = Some c
     | Array p v, Array p' v' =>
         p' = p /\
         forall i col, v !! i = Some col ->
           exists le c, self !! i = Some le /\ le_transform le col = Ok c /\ v' !! i = Some c
     | _, _ => False
     end).
Proof.
  intros Hfit.
  destruct (fit_returns_inv _ _ _ _ Hfit) as (cols & Hkind & Hn & Hcols & _).
  destruct (fit_columns_returns _ _ _ _ Hcols) as [Hin Hout].
  assert (forall j, is_Some (self !! j) <-> (j < n_features X)%nat) as Hdom.
  { intros j. rewrite Hn. split.
    - intros Hs. destruct (decide (j < length cols)%nat) as [|Hge]; [done|].
      rewrite Hout, lookup_empty in Hs by lia. by destruct Hs.
    - intros Hj. destruct (lookup_lt_is_Some_2 cols j Hj) as [col Hc].
      destruct (Hin j col Hc) as (le & _ & Hle). by exists le. }
  assert (size self = n_features X) as Hsize by by apply size_exactly.
  split_and!; try done.
  - intros X' Hk Hne. apply transform_width_mismatch; [done|]. by rewrite Hsize.
  - intros X' X''. destruct X' as [p names v|p v| |]; cbn; try done.
    + unfold _transform_dask_array. case_decide; [|done].
      destruct (transform_columns self 0 v) as [out|] eqn:Ho; [|done].
      destruct out as [|c0 out]; [done|]. cbn.
      intros [= <-]. destruct (transform_columns_returns _ _ _ _ Ho) as [Hl Hi].
      cbn. split_and!; try done.
    + unfold _transform_dask_array. case_decide; [|done].
      destruct (transform_columns self 0 v) as [out|] eqn:Ho; [|done].
      destruct out as [|c0 out]; [done|]. cbn.
      intros [= <-]. destruct (transform_columns_returns _ _ _ _ Ho) as [Hl Hi].
      cbn. split_and!; try done.
Qed.

(** X20.  [fit] never clears [self.encoders]: it overwrites the keys of the
    columns it sees and leaves every other key as it was.  So after a refit
    on data with fewer columns than an earlier fit, the encoders of the
    extra columns are still there, and [transform] raises [AssertionError]
    on every table or array of the new width, the refitted data included. *)
Theorem refit_keeps_stale_encoders
    (X : input) (y : target) (before after : gmap nat label_encoder) :
  fit before X y = (Returns tt, after) ->
  (forall j, (n_features X <= j)%nat -> after !! j = before !! j) /\
  (forall k, (n_features X <= k)%nat -> is_Some (before !! k) ->
     forall X', is_table_or_array X' = true -> n_features X' = n_features X ->
       transform after X' = Raises Assertion).
Proof.
  intros Hfit.
  destruct (fit_returns_inv _ _ _ _ Hfit) as (cols & Hkind & Hn & Hcols & _).
  destruct (fit_columns_returns _ _ _ _ Hcols) as [Hin Hout].
  assert (forall j, (n_features X <= j)%nat -> after !! j = before !! j) as Hstale.
  { intros j Hj. apply Hout. lia. }
  split; [done|].
  intros k Hk Hs X' Hkind' Hw. apply transform_width_mismatch; [done|].
  assert (n_features X < size after)%nat; [|lia].
  apply (size_more after (n_features X) k); [|done|by rewrite Hstale].
  intros j Hj. rewrite Hn in Hj.
  destruct (lookup_lt_is_Some_2 cols j Hj) as [col Hc].
  destruct (Hin j col Hc) as (le & _ & Hle). by exists le.
Qed.

(** X21.  When a label encoder refuses a column in the middle of [fit], the
    exception is raised with the encoders of the columns before it already
    stored and those of that column and the later ones untouched: a failed
    [fit] leaves the object half updated. *)
Theorem failed_fit_is_partial
    (p : bool) (cols : list column) (before after : gmap nat label_encoder) (r : raised) :
  fit before (Array p cols) NoTarget = (Raises r, after) ->
  exists (i : nat) (col : column) (e : exn),
    r = FromLabelEncoder e /\ cols !! i = Some col /\ le_fit col = Err e /\
    (forall j c, (j < i)%nat -> cols !! j = Some c ->
       exists le, le_fit c = Ok le /\ after !! j = Some le) /\
    (forall j, (i <= j)%nat -> after !! j = before !! j).
Proof.
  cbn. unfold _fit_array. intros H.
  destruct (fit_columns_raises _ _ _ _ _ H) as (i & c & e & -> & Hi & He & Hb & Ha).
  exists i, c, e. split_and!; try done. intros j Hj. apply Ha. lia.
Qed.

End MultiLabel.

Section MultiLabelWitness.
Import MultiLabelEncoder Toy.

Lemma fit_then_transform_witness :
  fit toy_le_fit ∅ (Array false [[1; 2]; [5]]) NoTarget = (Returns tt, two_encoders) /\
  size two_encoders = 2%nat /\
  transform toy_le_transform two_encoders (Array true [[1; 2]]) = Raises Assertion /\
  transform toy_le_transform two_encoders (Frame true ["u"; "v"] [[2; 1]; [5; 5]])
  = Returns (Frame true ["u"; "v"] [[1; 0]; [0; 0]]).
Proof.
  assert (fit toy_le_fit ∅ (Array false [[1; 2]; [5]]) NoTarget
          = (Returns tt, two_encoders)) as Hfit by (vm_compute; reflexivity).
  destruct (fit_then_transform toy_le_fit toy_le_transform _ _ _ Hfit)
    as (Hsize & _ & Hwidth & _).
  split; [exact Hfit|]. split; [exact Hsize|]. split.
  - apply Hwidth; [reflexivity|]. cbn. discriminate.
  - vm_compute. reflexivity.
Defined.

Lemma refit_keeps_stale_encoders_witness :
  fit toy_le_fit two_encoders (Array false [[3]]) NoTarget = (Returns tt, refitted_encoders) /\
  refitted_encoders !! 1%nat = two_encoders !! 1%nat /\
  transform toy_le_transform refitted_encoders (Array false [[3]]) = Raises Assertion.
Proof.
  assert (fit toy_le_fit two_encoders (Array false [[3]]) NoTarget
          = (Returns tt, refitted_encoders)) as Hfit by (vm_compute; reflexivity).
  destruct (refit_keeps_stale_encoders toy_le_fit toy_le_transform _ _ _ _ Hfit)
    as [Hstale Hraise].
  split; [exact Hfit|]. split.
  - apply Hstale. cbn. lia.
  - apply (Hraise 1%nat); [cbn; lia|by eexists|reflexivity|reflexivity].
Defined.

Lemma failed_fit_is_partial_witness :
  fit toy_le_fit two_encoders (Array false [[7]; []; [8]]) NoTarget
  = (Raises (FromLabelEncoder (ValueError CannotConvert)),
     <[0%nat := [7]]> two_encoders) /\
  exists (i : nat) (col : list Z) (e : exn),
    [[7]; []; [8]] !! i = Some col /\ toy_le_fit col = Err e.
Proof.
  assert (fit toy_le_fit two_encoders (Array false [[7]; []; [8]]) NoTarget
          = (Raises (FromLabelEncoder (ValueError CannotConvert)),
             <[0%nat := [7]]> two_encoders)) as Hfit by (vm_compute; reflexivity).
  split; [exact Hfit|].
  destruct (failed_fit_is_partial toy_le_fit _ _ _ _ _ Hfit)
    as (i & col & e & _ & H1 & H2 & _).
  by exists i, col, e.
Defined.

End MultiLabelWitness.
